(** * tldv_downloader: a shallow embedding of [src/tldv_downloader.py]

    The Python module is a class [TLDVDownloader] whose methods are pure
    string functions ([sanitize_filename], [extract_meeting_id],
    [prepare_auth_token]), a JSON reader ([parse_meeting_info]) and an
    orchestration of external effects (HTTP, sub-processes, files).

    Conventions of the embedding:
    - a Python [str] is a [string]; a character is an [ascii], read as the
      code point of the same number (U+0000 .. U+00FF);
    - a Python [dict] obtained from JSON is a [gmap string json];
    - a raised exception is the left injection of a sum, see [exn];
    - effects are recorded in a trace, the answers of the outside world
      are read from a [World] record. *)

From Stdlib Require Import Ascii String.
From stdpp Require Import base option list gmap strings.

#[local] Open Scope string_scope.
#[local] Open Scope list_scope.
#[local] Arguments String.append !_ _ / : simpl nomatch.

(** ** Python [str] methods *)

Module PyStr.

(** [str.isspace] on one character, for code points below 256:
    TAB LF VT FF CR, FS GS RS US, SPACE, NEL and NBSP. *)
Definition is_space (c : ascii) : bool :=
  let n := nat_of_ascii c in
  ((9 <=? n)%nat && (n <=? 13)%nat) || ((28 <=? n)%nat && (n <=? 32)%nat)
  || (n =? 133)%nat || (n =? 160)%nat.

(** [c in chars] *)
Fixpoint mem (c : ascii) (chars : string) : bool :=
  match chars with
  | EmptyString => false
  | String d r => Ascii.eqb c d || mem c r
  end.

Definition is_empty (s : string) : bool :=
  match s with EmptyString => true | String _ _ => false end.

(** [s.lstrip(..)], [s.rstrip(..)], [s.strip(..)] for a class [p] of
    characters. *)
Fixpoint lstrip_by (p : ascii -> bool) (s : string) : string :=
  match s with
  | EmptyString => EmptyString
  | String c r => if p c then lstrip_by p r else s
  end.

Fixpoint rstrip_by (p : ascii -> bool) (s : string) : string :=
  match s with
  | EmptyString => EmptyString
  | String c r =>
      let r' := rstrip_by p r in
      if is_empty r' && p c then EmptyString else String c r'
  end.

Definition strip_by (p : ascii -> bool) (s : string) : string :=
  rstrip_by p (lstrip_by p s).

(** [s.strip()] *)
Definition strip (s : string) : string := strip_by is_space s.

(** [s.strip(chars)] and [s.rstrip(chars)] *)
Definition strip_chars (chars s : string) : string :=
  strip_by (fun c => mem c chars) s.
Definition rstrip_chars (chars s : string) : string :=
  rstrip_by (fun c => mem c chars) s.

(** [s.startswith(p)] *)
Definition startswith (p s : string) : bool := String.prefix p s.

(** [s.split(sep)] for a one-character separator; never the empty list. *)
Fixpoint split (sep : ascii) (s : string) : list string :=
  match s with
  | EmptyString => [EmptyString]
  | String c r =>
      if Ascii.eqb c sep then EmptyString :: split sep r
      else match split sep r with
           | h :: t => String c h :: t
           | [] => [String c EmptyString]
           end
  end.

(** [s[:n]] *)
Fixpoint take (n : nat) (s : string) : string :=
  match n, s with
  | S k, String c r => String c (take k r)
  | _, _ => EmptyString
  end.

(** [re.sub(cls, rep, s)] for a one-character class [cls]. *)
Fixpoint sub_class (cls : ascii -> bool) (rep : ascii) (s : string) : string :=
  match s with
  | EmptyString => EmptyString
  | String c r => String (if cls c then rep else c) (sub_class cls rep r)
  end.

Definition starts_with_char (c : ascii) (s : string) : bool :=
  match s with String d _ => Ascii.eqb d c | EmptyString => false end.

(** [re.sub(c{2,}, c, s)]: every maximal run of two or more [c] becomes a
    single [c]. A [c] is dropped when another [c] follows, so the last one of
    each run stays. *)
Fixpoint sub_runs (c : ascii) (s : string) : string :=
  match s with
  | EmptyString => EmptyString
  | String d r =>
      if Ascii.eqb d c && starts_with_char c r then sub_runs c r
      else String d (sub_runs c r)
  end.

(** First and last character, when there is one. *)
Definition head (s : string) : option ascii :=
  match s with String c _ => Some c | EmptyString => None end.

Fixpoint last (s : string) : option ascii :=
  match s with
  | EmptyString => None
  | String c EmptyString => Some c
  | String _ r => last r
  end.

(** Every character satisfies [p]. *)
Fixpoint all (p : ascii -> bool) (s : string) : bool :=
  match s with
  | EmptyString => true
  | String c r => p c && all p r
  end.

(** [c] never occurs twice in a row. *)
Fixpoint no_run (c : ascii) (s : string) : bool :=
  match s with
  | EmptyString => true
  | String d r => negb (Ascii.eqb d c && starts_with_char c r) && no_run c r
  end.

(** [n] copies of [c]. *)
Fixpoint replicate (n : nat) (c : ascii) : string :=
  match n with O => EmptyString | S k => String c (replicate k c) end.

End PyStr.

(** ** Exceptions

    The classes of [Exception] that the module raises or lets through, each
    with its message. *)

Inductive exn : Type :=
| ValueError (msg : string)
| RuntimeError (msg : string)
| TypeError (msg : string)
| AttributeError (msg : string)
| IndexError (msg : string)
| OSError (msg : string)
| FileNotFoundError (msg : string)
| TimeoutExpired (msg : string)
| SubprocessError (msg : string)
| RequestException (msg : string).

(** The result of a call: a value or a raised exception. *)
Definition result (A : Type) : Type := exn + A.

(** Sequencing: an exception raised by the first call ends the second. *)
#[global] Instance result_ret : MRet result := fun A a => inr a.
#[global] Instance result_bind : MBind result := fun A B f r =>
  match r with
  | inl e => inl e
  | inr a => f a
  end.

(** [str(e)] *)
Definition exn_str (e : exn) : string :=
  match e with
  | ValueError m | RuntimeError m | TypeError m | AttributeError m
  | IndexError m | OSError m | FileNotFoundError m | TimeoutExpired m
  | SubprocessError m | RequestException m => m
  end.

(** ** The pure methods of [TLDVDownloader] *)

(** The character class of the first [re.sub] (line 29): less-than,
    greater-than, colon, double quote (code 34), slash, backslash, bar,
    question mark and star. *)
Definition invalid_char (c : ascii) : bool :=
  PyStr.mem c (String "034"%char "<>:/\|?*").

Definition default_name : string := "TLDV_Meeting".

(** The value of [sanitized] after [sanitized.strip('_ ')] (line 33). *)
Definition sanitize_trimmed (name : string) : string :=
  PyStr.strip_chars "_ " (PyStr.sub_runs "_"%char (PyStr.sub_class invalid_char "_"%char name)).

Definition sanitize_filename (name : string) : string :=
  let sanitized := sanitize_trimmed name in
  let sanitized :=
    if (100 <? String.length sanitized)%nat then PyStr.take 100 sanitized
    else sanitized in
  if PyStr.is_empty sanitized then default_name else sanitized.

(** [l[-1]] *)
Definition index_last {A : Type} (l : list A) : result A :=
  match List.rev l with
  | x :: _ => inr x
  | [] => inl (IndexError "list index out of range")
  end.

Definition url_stripped (url : string) : string :=
  PyStr.rstrip_chars "/" (PyStr.strip url).

Definition extract_meeting_id (url : string) : result string :=
  let url := url_stripped url in
  let body : result string :=
    match index_last (PyStr.split "/"%char url) with
    | inl e => inl e
    | inr meeting_id =>
        if (String.length meeting_id <? 10)%nat
        then inl (ValueError "Invalid meeting ID format")
        else inr meeting_id
    end in
  match body with
  | inl (IndexError _) | inl (ValueError _) =>
      inl (ValueError ("Could not extract meeting ID from URL: " +:+ url))
  | r => r
  end.

Definition prepare_auth_token (token : string) : string :=
  let token := PyStr.strip token in
  if negb (PyStr.startswith "Bearer " token) && negb (PyStr.startswith "bearer " token)
  then "Bearer " +:+ token
  else token.

(** ** JSON values, as [response.json()] returns them

    A number is an integer here; the methods treat a float as they treat an
    integer (it is tested for truth and refused where text is needed). *)

#[warnings="-register-all"]
Inductive json : Type :=
| JNull
| JBool (b : bool)
| JNum (n : Z)
| JStr (s : string)
| JArr (l : list json)
| JObj (m : gmap string json).

(** [bool(v)]: the truth value Python gives to [v]. *)
Definition truthy (v : json) : bool :=
  match v with
  | JNull => false
  | JBool b => b
  | JNum n => negb (n =? 0)%Z
  | JStr s => negb (PyStr.is_empty s)
  | JArr l => match l with [] => false | _ => true end
  | JObj m => negb (bool_decide (m = ∅))
  end.

(** [type(v).__name__] *)
Definition type_name (v : json) : string :=
  match v with
  | JNull => "NoneType"
  | JBool _ => "bool"
  | JNum _ => "int"
  | JStr _ => "str"
  | JArr _ => "list"
  | JObj _ => "dict"
  end.

(** [v.get(key, default)]: only a dict has the method. *)
Definition py_get (v : json) (key : string) (dflt : json) : result json :=
  match v with
  | JObj m => inr (default dflt (m !! key))
  | _ => inl (AttributeError ("'" +:+ type_name v +:+ "' object has no attribute 'get'"))
  end.

(** ** [datetime]: the part of [strptime] and [strftime] the module uses *)

Record datetime : Type := mk_datetime {
  year : nat; month : nat; day : nat;
  hour : nat; minute : nat; second : nat; microsecond : N
}.

Module Strptime.

(** A regular expression with a value: the matches of a prefix of the
    input, in the order in which a backtracking matcher tries them. *)
Definition re (A : Type) : Type := string -> list (A * string).

Definition re_ret {A} (a : A) : re A := fun s => [(a, s)].
Definition re_bind {A B} (p : re A) (f : A -> re B) : re B :=
  fun s => flat_map (fun '(a, r) => f a r) (p s).
Definition re_alt {A} (p q : re A) : re A := fun s => (p s ++ q s)%list.

Definition digit_value (c : ascii) : option nat :=
  let n := nat_of_ascii c in
  if (48 <=? n)%nat && (n <=? 57)%nat then Some (n - 48) else None.

(** One digit between [lo] and [hi]: the classes [[lo-hi]] and [\d]. *)
Definition digit (lo hi : nat) : re nat := fun s =>
  match s with
  | String c r =>
      match digit_value c with
      | Some d => if (lo <=? d)%nat && (d <=? hi)%nat then [(d, r)] else []
      | None => []
      end
  | EmptyString => []
  end.

(** A literal character; the pattern is compiled with [re.IGNORECASE]. *)
Definition lower (c : ascii) : ascii :=
  let n := nat_of_ascii c in
  if (65 <=? n)%nat && (n <=? 90)%nat then ascii_of_nat (n + 32) else c.

Definition lit (c : ascii) : re unit := fun s =>
  match s with
  | String d r => if Ascii.eqb (lower d) (lower c) then [(tt, r)] else []
  | EmptyString => []
  end.

Definition two (a b : re nat) : re nat :=
  re_bind a (fun x => re_bind b (fun y => re_ret (10 * x + y))).

(** The groups of [_strptime.TimeRE]. *)
(** [%Y]: [\d\d\d\d] *)
Definition dir_Y : re nat :=
  re_bind (two (digit 0 9) (digit 0 9)) (fun hi =>
  re_bind (two (digit 0 9) (digit 0 9)) (fun lo => re_ret (100 * hi + lo))).
(** [%m]: [1[0-2]|0[1-9]|[1-9]] *)
Definition dir_m : re nat :=
  re_alt (two (digit 1 1) (digit 0 2))
    (re_alt (two (digit 0 0) (digit 1 9)) (digit 1 9)).
(** [%d]: [3[0-1]|[1-2]\d|0[1-9]|[1-9]| [1-9]] *)
Definition dir_d : re nat :=
  re_alt (two (digit 3 3) (digit 0 1))
    (re_alt (two (digit 1 2) (digit 0 9))
      (re_alt (two (digit 0 0) (digit 1 9))
        (re_alt (digit 1 9)
          (re_bind (lit " ") (fun _ => digit 1 9))))).
(** [%H]: [2[0-3]|[0-1]\d|\d] *)
Definition dir_H : re nat :=
  re_alt (two (digit 2 2) (digit 0 3))
    (re_alt (two (digit 0 1) (digit 0 9)) (digit 0 9)).
(** [%M]: [[0-5]\d|\d] *)
Definition dir_M : re nat :=
  re_alt (two (digit 0 5) (digit 0 9)) (digit 0 9).
(** [%S]: [6[0-1]|[0-5]\d|\d] *)
Definition dir_S : re nat :=
  re_alt (two (digit 6 6) (digit 0 1))
    (re_alt (two (digit 0 5) (digit 0 9)) (digit 0 9)).

(** [%f]: [[0-9]{1,6}], greedy; the digits read are padded with zeros on
    the right to six. [digits_upto n acc] reads at most [n] digits, the longest
    run first, and scales the value by the places that are left. *)
Fixpoint digits_upto (n : nat) (acc : N) : re N :=
  match n with
  | O => re_ret acc
  | S k =>
      re_alt
        (re_bind (digit 0 9) (fun d => digits_upto k (10 * acc + N.of_nat d)%N))
        (re_ret (acc * 10 ^ N.of_nat n)%N)
  end.
Definition dir_f : re N :=
  re_bind (digit 0 9) (fun d => digits_upto 5 (N.of_nat d)).

(** The pattern of the format ["%Y-%m-%dT%H:%M:%S.%fZ"] (line 97). *)
Definition iso_pattern : re datetime :=
  re_bind dir_Y (fun y => re_bind (lit "-") (fun _ =>
  re_bind dir_m (fun m => re_bind (lit "-") (fun _ =>
  re_bind dir_d (fun d => re_bind (lit "T") (fun _ =>
  re_bind dir_H (fun h => re_bind (lit ":") (fun _ =>
  re_bind dir_M (fun mi => re_bind (lit ":") (fun _ =>
  re_bind dir_S (fun sec => re_bind (lit ".") (fun _ =>
  re_bind dir_f (fun us => re_bind (lit "Z") (fun _ =>
  re_ret (mk_datetime y m d h mi sec us))))))))))))))).

Definition is_leap (y : nat) : bool :=
  ((y mod 4 =? 0)%nat && negb (y mod 100 =? 0)%nat) || (y mod 400 =? 0)%nat.

Definition days_in_month (y m : nat) : nat :=
  match m with
  | 2 => if is_leap y then 29 else 28
  | 4 | 6 | 9 | 11 => 30
  | _ => 31
  end.

(** The checks of the [datetime] constructor on what the pattern lets
    through: year 0, a day the month does not have, second 60 or 61. *)
Definition valid (d : datetime) : bool :=
  (1 <=? year d)%nat && (day d <=? days_in_month (year d) (month d))%nat
  && (second d <=? 59)%nat.

(** [datetime.strptime(s, "%Y-%m-%dT%H:%M:%S.%fZ")] for a [str]. *)
Definition strptime_iso (s : string) : result datetime :=
  match iso_pattern s with
  | [] => inl (ValueError ("time data does not match format: " +:+ s))
  | (d, rest) :: _ =>
      if negb (PyStr.is_empty rest)
      then inl (ValueError ("unconverted data remains: " +:+ rest))
      else if valid d then inr d
      else inl (ValueError "value out of range for datetime")
  end.

End Strptime.

(** [datetime.strptime(v, fmt)] on a JSON value: the first argument must be
    a [str]. *)
Definition strptime (v : json) : result datetime :=
  match v with
  | JStr s => Strptime.strptime_iso s
  | _ => inl (TypeError ("strptime() argument 1 must be str, not " +:+ type_name v))
  end.

Definition digit_char (n : nat) : ascii := ascii_of_nat (48 + n mod 10).

(** Two and four decimal digits, padded with zeros. *)
Definition pad2 (n : nat) : string :=
  String (digit_char (n / 10)) (String (digit_char n) EmptyString).
Definition pad4 (n : nat) : string := pad2 (n / 100) +:+ pad2 (n mod 100).

(** [%Y] of [strftime], for the years of a [datetime] (1 to 9999): the
    decimal digits of the year without padding, as the C library of Linux
    prints them ([999] for the year 999). *)
Definition year_text (y : nat) : string :=
  if (y <? 10)%nat then String (digit_char y) EmptyString
  else if (y <? 100)%nat then pad2 y
  else if (y <? 1000)%nat then String (digit_char (y / 100)) (pad2 (y mod 100))
  else pad4 y.

(** [d.strftime("%Y-%m-%d_%H-%M-%S")] (line 103). *)
Definition strftime (d : datetime) : string :=
  year_text (year d) +:+ "-" +:+ pad2 (month d) +:+ "-" +:+ pad2 (day d) +:+ "_"
  +:+ pad2 (hour d) +:+ "-" +:+ pad2 (minute d) +:+ "-" +:+ pad2 (second d).

(** ** [parse_meeting_info] *)

(** The dict the method returns. *)
Record MeetingInfo : Type := mk_info {
  name : string;
  timestamp : string;
  source_url : json;
  full_data : json
}.

(** [re.sub] needs a [str]: [sanitize_filename] of another value raises. *)
Definition sanitize_filename_of (v : json) : result string :=
  match v with
  | JStr s => inr (sanitize_filename s)
  | _ => inl (TypeError ("expected string or bytes-like object, got '" +:+ type_name v +:+ "'"))
  end.

Definition missing_source : exn :=
  ValueError "Video source URL not found in meeting data".

(** Lines 95-101: the date of [created_at], or [now] when it is false or
    [strptime] raises [ValueError]; another exception is not caught. *)
Definition parse_date (now : datetime) (created_at : json) : result datetime :=
  let body := if truthy created_at then strptime created_at else inr now in
  match body with
  | inl (ValueError _) => inr now
  | r => r
  end.

(** [now] is what [datetime.now()] answers. *)
Definition parse_meeting_info (now : datetime) (data : json) : result MeetingInfo :=
  meeting ← py_get data "meeting" (JObj ∅);
  video ← py_get data "video" (JObj ∅);
  name ← py_get meeting "name" (JStr "TLDV_Meeting");
  created_at ← py_get meeting "createdAt" JNull;
  source_url ← py_get video "source" JNull;
  if negb (truthy source_url) then inl missing_source
  else
    date_obj ← parse_date now created_at;
    let timestamp := strftime date_obj in
    sanitized_name ← sanitize_filename_of name;
    inr (mk_info sanitized_name timestamp source_url data).

(** ** The outside world and the effects of a call *)

(** What [subprocess.run] does: the process ends with a return code, or
    the call raises (the program is not there, the time is over, ...). *)
Inductive run_outcome : Type :=
| Completed (returncode : Z)
| RunRaised (e : exn).

(** What [session.get] does: a response, or a transport failure with the
    text of its exception. A response has its status, its body when that is
    JSON, and the text of the exception it raises when asked: the [HTTPError]
    of [raise_for_status] for a status from 400 to 599 (the library writes the
    status, the reason and the address into it), otherwise the error of the
    decoder in [json()] for a body that is not JSON. *)
Inductive http_outcome : Type :=
| Response (status_code : nat) (error_text : string) (body : option json)
| GetRaised (msg : string).

(** One outcome of a batch: the dicts built in [download_single]. *)
Record DownloadOutcome : Type := mk_outcome {
  success : bool;
  url : string;
  file : option string;
  error : option string
}.

(** The calls that reach outside the process, in the order they are made.
    Printing to the terminal is left out, except for the batch summary. *)
Inductive event : Type :=
| EvMkdir (path : string)
| EvCwd
| EvGet (api_url authorization : string)
| EvRun (argv : list string) (timeout : nat)
| EvExists (path : string)
| EvOpenWrite (path : string) (data : json)
| EvPool (max_workers : Z)
| EvSummary (successful failed : list DownloadOutcome).

(** The answers of the outside world to those calls. *)
Record World : Type := mk_world {
  cwd : string;
  mkdir : string -> option exn;
  http_get : string -> string -> http_outcome;
  now : datetime;
  subprocess_run : list string -> nat -> run_outcome;
  path_exists : string -> bool;
  write_json : string -> json -> option exn
}.

(** A call: its value or exception, and the events it caused. *)
Definition IO (A : Type) : Type := (result A * list event)%type.

Definition io_result {A} (m : IO A) : result A := fst m.
Definition io_trace {A} (m : IO A) : list event := snd m.

#[global] Instance io_ret : MRet IO := fun A a => (inr a, []).
#[global] Instance io_bind : MBind IO := fun A B f m =>
  match m with
  | (inl e, t) => (inl e, t)
  | (inr a, t) => let '(r, t') := f a in (r, t ++ t')
  end.

Definition emit (ev : event) : IO unit := (inr tt, [ev]).
Definition raise {A} (e : exn) : IO A := (inl e, []).
Definition lift {A} (r : result A) : IO A := (r, []).

(** [try: m except ..: h]: [h e] is the handler of the first clause that
    matches [e], [None] when no clause does. *)
Definition try_except {A} (m : IO A) (h : exn -> option (IO A)) : IO A :=
  match m with
  | (inl e, t) =>
      match h e with
      | Some k => let '(r, t') := k in (r, t ++ t')
      | None => (inl e, t)
      end
  | ok => ok
  end.

(** ** Paths ([pathlib], POSIX flavour)

    [Path(s)] reads the text [s] into a root and a list of parts: the root is
    one slash, or two when the text starts with exactly two, or nothing; the
    parts are the pieces between slashes, without the empty ones and the
    single dots. [str(path)] writes the root and the parts joined by slashes,
    [.] when there is nothing to write. A [Path] is kept here as that text,
    which is what the calls to the outside receive; reading the text again
    gives the same root and parts. *)

Module PyPath.

(** [s.rpartition(c)] when [c] occurs: the text before and after the
    last [c]. *)
Fixpoint rpartition (c : ascii) (s : string) : option (string * string) :=
  match s with
  | EmptyString => None
  | String d r =>
      match rpartition c r with
      | Some (a, b) => Some (String d a, b)
      | None => if Ascii.eqb d c then Some (EmptyString, r) else None
      end
  end.

(** The root: the slashes the text starts with count as one, except when
    they are exactly two. *)
Definition root (s : string) : string :=
  match s with
  | String c1 (String c2 (String c3 _)) =>
      if negb (Ascii.eqb c1 "/") then EmptyString
      else if negb (Ascii.eqb c2 "/") then "/"
      else if negb (Ascii.eqb c3 "/") then "//"
      else "/"
  | String c1 (String c2 EmptyString) =>
      if negb (Ascii.eqb c1 "/") then EmptyString
      else if negb (Ascii.eqb c2 "/") then "/"
      else "//"
  | String c1 EmptyString =>
      if Ascii.eqb c1 "/" then "/" else EmptyString
  | EmptyString => EmptyString
  end.

Definition is_part (x : string) : bool :=
  negb (PyStr.is_empty x || String.eqb x ".").

Definition parts (s : string) : list string :=
  List.filter is_part (PyStr.split "/" s).

(** ["/".join(parts)] *)
Fixpoint join_parts (ps : list string) : string :=
  match ps with
  | [] => EmptyString
  | x :: rest =>
      match rest with
      | [] => x
      | _ :: _ => x +:+ String "/" (join_parts rest)
      end
  end.

(** [str] of the path with this root and these parts. *)
Definition text (root : string) (ps : list string) : string :=
  let s := root +:+ join_parts ps in
  if PyStr.is_empty s then "." else s.

(** [str(Path(s))] *)
Definition path (s : string) : string := text (root s) (parts s).

(** [str(Path(p) / name)]: a [name] with a root replaces [p]. *)
Definition join (p name : string) : string :=
  if PyStr.is_empty (root name) then text (root p) (parts p ++ parts name)
  else path name.

(** [str(Path(p).parent)]: a path without parts is its own parent. *)
Definition parent (p : string) : string :=
  text (root p) (removelast (parts p)).

(** [Path(p).name]: the last part, if any. *)
Definition name (p : string) : string := List.last (parts p) EmptyString.

(** [Path(p).stem]: the name without its last suffix; a dot at either end
    is no suffix. *)
Definition stem (p : string) : string :=
  let n := name p in
  match rpartition "." n with
  | Some (a, b) => if PyStr.is_empty a || PyStr.is_empty b then n else a
  | None => n
  end.

End PyPath.

(** The [output_dir] argument: [None], a [str], or the [Path] a batch hands
    to its workers (a [Path] is always true). *)
Inductive dir_arg : Type :=
| NoDir
| DirStr (s : string)
| DirPath (p : string).

Definition dir_truthy (d : dir_arg) : bool :=
  match d with
  | NoDir => false
  | DirStr s => negb (PyStr.is_empty s)
  | DirPath _ => true
  end.

(** [Path(output_dir)], as text. *)
Definition dir_text (d : dir_arg) : string :=
  match d with
  | NoDir => EmptyString
  | DirStr s | DirPath s => PyPath.path s
  end.

(** ** The effectful methods *)

Section Methods.

Context (W : World).

(** Lines 291-295 and 222-226. *)
Definition setup_output_dir (output_dir : dir_arg) : IO string :=
  if dir_truthy output_dir then
    let output_path := dir_text output_dir in
    emit (EvMkdir output_path);;
    match mkdir W output_path with
    | Some e => raise e
    | None => mret output_path
    end
  else
    emit EvCwd;; mret (PyPath.path (cwd W)).

Definition fetch_meeting_data (meeting_id auth_token : string) : IO json :=
  let api_url :=
    "https://gw.tldv.io/v1/meetings/" +:+ meeting_id
    +:+ "/watch-page?noTranscript=true" in
  emit (EvGet api_url auth_token);;
  match http_get W api_url auth_token with
  | GetRaised msg => raise (ValueError ("Network error: " +:+ msg))
  | Response status error_text body =>
      if (400 <=? status)%nat && (status <? 600)%nat then
        if (status =? 401)%nat then raise (ValueError "Unauthorized: Invalid auth token")
        else if (status =? 404)%nat then raise (ValueError "Meeting not found")
        else raise (ValueError ("API error: " +:+ error_text))
      else
        match body with
        | Some data => mret data
        | None => raise (ValueError ("Network error: " +:+ error_text))
        end
  end.

(** [subprocess.run(command, timeout=..)]: the arguments must be text,
    then the world answers. *)
Definition argv_text (command : list json) : option (list string) :=
  mapM (fun v => match v with JStr s => Some s | _ => None end) command.

Definition run (command : list json) (timeout : nat) : IO Z :=
  match argv_text command with
  | None => raise (TypeError "expected str, bytes or os.PathLike object")
  | Some argv =>
      emit (EvRun argv timeout);;
      match subprocess_run W argv timeout with
      | Completed returncode => mret returncode
      | RunRaised e => raise e
      end
  end.

Record downloader : Type := mk_downloader {
  dl_name : string;
  cmd : string;
  preferred : bool
}.

Definition primary : downloader := mk_downloader "N_m3u8DL-RE" "N_m3u8DL-RE" true.
Definition fallback : downloader := mk_downloader "ffmpeg" "ffmpeg" false.
Definition downloaders : list downloader := [primary; fallback].

Definition no_downloader : exn :=
  RuntimeError "Neither N_m3u8DL-RE nor ffmpeg is available. Please install one of them.".

(** The body of the loop (lines 122-135): is the downloader appended? *)
Definition probe (d : downloader) : IO bool :=
  try_except
    (returncode ← run [JStr (cmd d); JStr "--version"] 10;
     mret (returncode =? 0)%Z)
    (fun e =>
       match e with
       | TimeoutExpired _ | FileNotFoundError _ | SubprocessError _ => Some (mret false)
       | _ => None
       end).

Fixpoint probe_all (ds available : list downloader) : IO (list downloader) :=
  match ds with
  | [] => mret available
  | d :: ds' =>
      ok ← probe d;
      probe_all ds' (if ok : bool then available ++ [d] else available)
  end.

Definition check_downloader_availability : IO downloader :=
  available ← probe_all downloaders [];
  match available with
  | [] => raise no_downloader
  | first :: _ => mret (default first (List.find preferred available))
  end.

(** Lines 171-203; [output_file] is a [str] or the text of a [Path]. The
    size read by [stat] is only printed; the file system answers [stat] as it
    answered [exists] just before. *)
Definition _run_download_command (command : list json) (output_file : string) : IO bool :=
  try_except
    (returncode ← run command 3600;
     if (returncode =? 0)%Z then
       let file := PyPath.path output_file in
       emit (EvExists file);;
       if path_exists W file then mret true else mret false
     else mret false)
    (fun e =>
       match e with
       | TimeoutExpired _ => Some (mret false)
       | _ => Some (mret false)
       end).

Definition download_with_n_m3u8dl_re (source_url : json) (output_file : string) : IO bool :=
  let command :=
    [JStr "N_m3u8DL-RE"; source_url;
     JStr "--save-name"; JStr (PyPath.stem output_file);
     JStr "--save-dir"; JStr (PyPath.parent output_file);
     JStr "--thread-count"; JStr "8";
     JStr "--download-retry-count"; JStr "3";
     JStr "--auto-select"; JStr "--no-log"] in
  _run_download_command command output_file.

Definition download_with_ffmpeg (source_url : json) (output_file : string) : IO bool :=
  let command :=
    [JStr "ffmpeg"; JStr "-i"; source_url; JStr "-c"; JStr "copy"; JStr "-y";
     JStr output_file] in
  _run_download_command command output_file.

Definition save_metadata (data : json) (filename : string) : IO unit :=
  let json_file := filename +:+ ".json" in
  try_except
    (emit (EvOpenWrite json_file data);;
     match write_json W json_file data with
     | Some e => raise e
     | None => mret tt
     end)
    (fun _ => Some (mret tt)).

(** The [try] block of [download_video] (lines 290-336). *)
Definition download_video_body (url auth_token : string) (output_dir : dir_arg)
  : IO (option string) :=
  output_path ← setup_output_dir output_dir;
  meeting_id ← lift (extract_meeting_id url);
  let auth_token := prepare_auth_token auth_token in
  data ← fetch_meeting_data meeting_id auth_token;
  info ← lift (parse_meeting_info (now W) data);
  let output_file :=
    PyPath.join output_path (timestamp info +:+ "_" +:+ name info +:+ ".mp4") in
  downloader ← check_downloader_availability;
  let metadata_name := timestamp info +:+ "_" +:+ name info in
  save_metadata (full_data info) (PyPath.join output_path metadata_name);;
  success ←
    (if String.eqb (dl_name downloader) "N_m3u8DL-RE"
     then download_with_n_m3u8dl_re (source_url info) output_file
     else download_with_ffmpeg (source_url info) output_file);
  if success : bool then mret (Some output_file) else mret None.

Definition download_video (url auth_token : string) (output_dir : dir_arg)
  : IO (option string) :=
  try_except (download_video_body url auth_token output_dir)
    (fun e =>
       match e with
       | ValueError _ => Some (mret None)
       | _ => Some (mret None)
       end).

End Methods.

(** ** The batch: [download_multiple_videos] *)

(** The world of a batch: the world the calling thread sees, the world each
    worker sees (by position of its item in the list), and the order in which
    [as_completed] yields the futures of [n] submitted items. *)
Record BatchWorld : Type := mk_batch_world {
  main_world : World;
  worker_world : nat -> World;
  completion_order : nat -> list nat
}.

(** [bool(result)] for what [download_video] returns. *)
Definition path_truthy (r : option string) : bool :=
  match r with
  | Some s => negb (PyStr.is_empty s)
  | None => false
  end.

(** The nested function [download_single] (lines 235-247), run by a worker
    that sees the world [Wi]. *)
Definition download_single (Wi : World) (output_path : string)
    (video_data : string * string) : IO DownloadOutcome :=
  let '(url, auth_token) := video_data in
  try_except
    (r ← download_video Wi url auth_token (DirPath output_path);
     if path_truthy r
     then mret (mk_outcome true url r None)
     else mret (mk_outcome false url None (Some "Download failed")))
    (fun e => Some (mret (mk_outcome false url None (Some (exn_str e))))).

(** The body of the loop over [as_completed] (lines 259-270) for one
    future: [r] is what [future.result()] gives. *)
Definition collect_one (url : string) (r : result DownloadOutcome)
    (acc : list DownloadOutcome * list DownloadOutcome)
  : list DownloadOutcome * list DownloadOutcome :=
  let '(successful_downloads, failed_downloads) := acc in
  match r with
  | inr res =>
      if success res then (successful_downloads ++ [res], failed_downloads)
      else (successful_downloads, failed_downloads ++ [res])
  | inl e =>
      (successful_downloads,
       failed_downloads ++ [mk_outcome false url None (Some (exn_str e))])
  end.

Definition emit_all (t : list event) : IO unit := (inr tt, t).

(** The futures in the order of completion. The events of one worker are
    kept together; how the workers interleave is not modelled. *)
Fixpoint run_pool (BW : BatchWorld) (output_path : string)
    (video_data_list : list (string * string)) (order : list nat)
    (acc : list DownloadOutcome * list DownloadOutcome)
  : IO (list DownloadOutcome * list DownloadOutcome) :=
  match order with
  | [] => mret acc
  | i :: order' =>
      match video_data_list !! i with
      | Some video_data =>
          let future := download_single (worker_world BW i) output_path video_data in
          emit_all (io_trace future);;
          run_pool BW output_path video_data_list order'
            (collect_one (fst video_data) (io_result future) acc)
      | None => run_pool BW output_path video_data_list order' acc
      end
  end.

(** Lines 215-285. The return value is [None] when the last statement is
    reached without a [return]. *)
Definition download_multiple_videos (BW : BatchWorld)
    (video_data_list : list (string * string)) (output_dir : dir_arg)
    (max_workers : Z) : IO (option (list DownloadOutcome)) :=
  match video_data_list with
  | [] => mret (Some [])
  | _ :: _ =>
      output_path ← setup_output_dir (main_world BW) output_dir;
      (if (max_workers <=? 0)%Z
       then raise (ValueError "max_workers must be greater than 0")
       else emit (EvPool max_workers));;
      acc ← run_pool BW output_path video_data_list
               (completion_order BW (length video_data_list)) ([], []);
      emit (EvSummary (fst acc) (snd acc));;
      mret None
  end.

(** * Properties *)

(** ** Strings *)

Module PyStrFacts.
Import PyStr.

Lemma is_empty_true s : is_empty s = true <-> s = EmptyString.
Proof. destruct s; simpl; split; intros; congruence. Qed.

(** *** Characters that survive *)

Lemma all_sub_class cls rep p s :
  p rep = true -> (forall c, cls c = false -> p c = true) ->
  all p (sub_class cls rep s) = true.
Proof.
  intros Hrep Hkeep. induction s as [|c r IH]; simpl; [done|].
  rewrite IH, andb_true_r. destruct (cls c) eqn:E; auto.
Qed.

Lemma all_sub_runs p c s : all p s = true -> all p (sub_runs c s) = true.
Proof.
  induction s as [|d r IH]; simpl; [done|].
  intros [Hd Hr]%andb_true_iff.
  destruct (Ascii.eqb d c && starts_with_char c r); simpl; auto.
  rewrite Hd; simpl; auto.
Qed.

Lemma all_lstrip p q s : all p s = true -> all p (lstrip_by q s) = true.
Proof.
  induction s as [|d r IH]; simpl; [done|].
  intros H. destruct (q d); [|done].
  apply andb_true_iff in H as [_ Hr]; auto.
Qed.

Lemma all_rstrip p q s : all p s = true -> all p (rstrip_by q s) = true.
Proof.
  induction s as [|d r IH]; simpl; [done|].
  intros [Hd Hr]%andb_true_iff.
  destruct (is_empty (rstrip_by q r) && q d); simpl; [done|].
  rewrite Hd; simpl; auto.
Qed.

Lemma all_take p n s : all p s = true -> all p (take n s) = true.
Proof.
  revert s; induction n as [|n IH]; intros [|d r]; simpl; try done.
  intros [Hd Hr]%andb_true_iff. rewrite Hd; simpl; auto.
Qed.

(** *** Runs *)

Lemma starts_sub_runs c s :
  starts_with_char c (sub_runs c s) = starts_with_char c s.
Proof.
  induction s as [|d r IH]; simpl; [done|].
  destruct (Ascii.eqb d c) eqn:Ed; simpl; [|by rewrite Ed].
  destruct (starts_with_char c r) eqn:Er; simpl; [by rewrite IH|].
  by rewrite Ed.
Qed.

Lemma no_run_sub_runs c s : no_run c (sub_runs c s) = true.
Proof.
  induction s as [|d r IH]; simpl; [done|].
  destruct (Ascii.eqb d c && starts_with_char c r) eqn:E; [done|].
  simpl. rewrite starts_sub_runs, E, IH. done.
Qed.

Lemma no_run_lstrip c q s : no_run c s = true -> no_run c (lstrip_by q s) = true.
Proof.
  induction s as [|d r IH]; simpl; [done|].
  intros H. destruct (q d); [|done].
  apply andb_true_iff in H as [_ Hr]; auto.
Qed.

Lemma starts_rstrip c q s :
  starts_with_char c (rstrip_by q s) = true -> starts_with_char c s = true.
Proof.
  destruct s as [|d r]; simpl; [done|].
  destruct (is_empty (rstrip_by q r) && q d); simpl; done.
Qed.

Lemma no_run_rstrip c q s : no_run c s = true -> no_run c (rstrip_by q s) = true.
Proof.
  induction s as [|d r IH]; simpl; [done|].
  intros [Hd Hr]%andb_true_iff.
  destruct (is_empty (rstrip_by q r) && q d); simpl; [done|].
  rewrite (IH Hr), andb_true_r.
  destruct (Ascii.eqb d c); simpl in *; [|done].
  destruct (starts_with_char c (rstrip_by q r)) eqn:E; [|done].
  apply starts_rstrip in E. by rewrite E in Hd.
Qed.



(** *** The two ends *)

Lemma head_lstrip p s c : head (lstrip_by p s) = Some c -> p c = false.
Proof.
  induction s as [|d r IH]; simpl; [done|].
  destruct (p d) eqn:E; simpl; [done|]. by intros [= <-].
Qed.

Lemma head_rstrip p s c : head (rstrip_by p s) = Some c -> head s = Some c.
Proof.
  destruct s as [|d r]; simpl; [done|].
  destruct (is_empty (rstrip_by p r) && p d); simpl; done.
Qed.

Lemma head_strip p s c : head (strip_by p s) = Some c -> p c = false.
Proof. intros H%head_rstrip. by eapply head_lstrip. Qed.

Lemma last_rstrip p s c : last (rstrip_by p s) = Some c -> p c = false.
Proof.
  induction s as [|d r IH]; simpl; [done|].
  destruct (is_empty (rstrip_by p r)) eqn:Er; simpl.
  - apply is_empty_true in Er. rewrite Er.
    destruct (p d) eqn:Ed; simpl; [done|]. by intros [= <-].
  - destruct (rstrip_by p r) eqn:E; [done|]. exact IH.
Qed.

Lemma last_strip p s c : last (strip_by p s) = Some c -> p c = false.
Proof. apply last_rstrip. Qed.




(** *** Stripping twice *)

Lemma lstrip_fixed p s :
  (forall c, head s = Some c -> p c = false) -> lstrip_by p s = s.
Proof. destruct s as [|d r]; simpl; [done|]. intros H. by rewrite (H d). Qed.

Lemma rstrip_fixed p s :
  (forall c, last s = Some c -> p c = false) -> rstrip_by p s = s.
Proof.
  induction s as [|d r IH]; simpl; [done|]. intros H.
  destruct r as [|e r'].
  - simpl. by rewrite (H d).
  - rewrite IH by exact H. done.
Qed.

Lemma strip_fixed p s :
  (forall c, head s = Some c -> p c = false) ->
  (forall c, last s = Some c -> p c = false) ->
  strip_by p s = s.
Proof.
  intros Hh Hl. unfold strip_by. rewrite lstrip_fixed by done.
  by apply rstrip_fixed.
Qed.

Lemma strip_idemp p s : strip_by p (strip_by p s) = strip_by p s.
Proof.
  apply strip_fixed; intros c.
  - apply head_strip.
  - apply last_strip.
Qed.

End PyStrFacts.

(** ** [sanitize_filename] *)

(** The characters [strip('_ ')] removes. *)
Definition trim_char (c : ascii) : bool := PyStr.mem c "_ ".

Definition starts_clean (s : string) : bool :=
  match PyStr.head s with Some c => negb (trim_char c) | None => true end.

Definition ends_clean (s : string) : bool :=
  match PyStr.last s with Some c => negb (trim_char c) | None => true end.




Lemma sanitize_trimmed_all name :
  PyStr.all (fun c => negb (invalid_char c)) (sanitize_trimmed name) = true.
Proof.
  unfold sanitize_trimmed, PyStr.strip_chars, PyStr.strip_by.
  apply PyStrFacts.all_rstrip, PyStrFacts.all_lstrip, PyStrFacts.all_sub_runs.
  apply PyStrFacts.all_sub_class; [done|].
  intros c ->. done.
Qed.

Lemma sanitize_trimmed_no_run name :
  PyStr.no_run "_" (sanitize_trimmed name) = true.
Proof.
  unfold sanitize_trimmed, PyStr.strip_chars, PyStr.strip_by.
  apply PyStrFacts.no_run_rstrip, PyStrFacts.no_run_lstrip.
  apply PyStrFacts.no_run_sub_runs.
Qed.

Lemma sanitize_trimmed_starts name : starts_clean (sanitize_trimmed name) = true.
Proof.
  unfold starts_clean, sanitize_trimmed, PyStr.strip_chars.
  destruct (PyStr.head _) as [c|] eqn:E; [|done].
  apply PyStrFacts.head_strip in E. unfold trim_char. by rewrite E.
Qed.

Lemma sanitize_trimmed_ends name : ends_clean (sanitize_trimmed name) = true.
Proof.
  unfold ends_clean, sanitize_trimmed, PyStr.strip_chars.
  destruct (PyStr.last _) as [c|] eqn:E; [|done].
  apply PyStrFacts.last_strip in E. unfold trim_char. by rewrite E.
Qed.

(** The three shapes of the result. *)
Lemma sanitize_filename_cases name :
  let t := sanitize_trimmed name in
  (t = EmptyString /\ sanitize_filename name = default_name)
  \/ (t <> EmptyString /\ String.length t <= 100 /\ sanitize_filename name = t)
  \/ (100 < String.length t /\ sanitize_filename name = PyStr.take 100 t).
Proof.
  intros t. unfold sanitize_filename. fold t.
  destruct (100 <? String.length t)%nat eqn:Hlen.
  - apply Nat.ltb_lt in Hlen. right; right. split; [done|].
    destruct t as [|c r]; [simpl in Hlen; lia|]. done.
  - apply Nat.ltb_ge in Hlen.
    destruct t as [|c r]; [left; done|]. right; left. done.
Qed.



(** ** [extract_meeting_id] *)

Definition no_slash (s : string) : Prop :=
  PyStr.all (fun c => negb (Ascii.eqb c "/")) s = true.

Lemma split_no_sep sep s :
  PyStr.all (fun c => negb (Ascii.eqb c sep)) s = true -> PyStr.split sep s = [s].
Proof.
  induction s as [|c r IH]; simpl; [done|].
  intros [Hc Hr]%andb_true_iff. apply negb_true_iff in Hc. rewrite Hc.
  by rewrite (IH Hr).
Qed.

(** After a prefix that ends with the separator, the last piece of the
    split is the rest, when the rest has no separator. *)
Lemma split_after_sep sep pre seg :
  PyStr.last pre = Some sep ->
  PyStr.all (fun c => negb (Ascii.eqb c sep)) seg = true ->
  exists l, l <> [] /\ PyStr.split sep (pre +:+ seg) = l ++ [seg].
Proof.
  intros Hlast Hseg. induction pre as [|c r IH]; [done|].
  destruct r as [|e r'].
  - simpl in Hlast. injection Hlast as ->. simpl.
    rewrite Ascii.eqb_refl, (split_no_sep _ _ Hseg).
    by exists [EmptyString].
  - destruct (IH Hlast) as (l & Hl & E).
    change (String c (String e r') +:+ seg) with (String c (String e r' +:+ seg)).
    cbn [PyStr.split]. rewrite E.
    destruct (Ascii.eqb c sep).
    + by exists (EmptyString :: l).
    + destruct l as [|h t]; [done|]. by exists (String c h :: t).
Qed.

Lemma index_last_snoc {A} (l : list A) (x : A) : index_last (l ++ [x]) = inr x.
Proof. unfold index_last. by rewrite rev_unit. Qed.

(** The last piece of the split is the text behind the last slash. *)
Lemma split_final_segment pre seg :
  pre = EmptyString \/ PyStr.last pre = Some "/"%char ->
  no_slash seg ->
  index_last (PyStr.split "/" (pre +:+ seg)) = inr seg.
Proof.
  intros [->|Hlast] Hseg.
  - simpl. rewrite (split_no_sep _ _ Hseg). done.
  - destruct (split_after_sep _ _ _ Hlast Hseg) as (l & _ & ->).
    apply index_last_snoc.
Qed.

(** Every text has a final segment: the split never is empty. *)
Lemma final_segment_exists (u : string) :
  exists pre seg,
    u = pre +:+ seg /\ (pre = EmptyString \/ PyStr.last pre = Some "/"%char)
    /\ no_slash seg.
Proof.
  induction u as [|c r (pre & seg & -> & Hpre & Hseg)].
  - exists EmptyString, EmptyString. split_and!; [done|by left|done].
  - destruct Hpre as [->|Hpre].
    + destruct (Ascii.eqb c "/") eqn:Ec.
      * apply Ascii.eqb_eq in Ec as ->.
        exists "/", seg. split_and!; [done|by right|done].
      * exists EmptyString, (String c seg). split_and!; [done|by left|].
        unfold no_slash. simpl. by rewrite Ec.
    + exists (String c pre), seg. split_and!; [done| |done].
      right. destruct pre; [done|]. exact Hpre.
Qed.

(** C4: write the URL, stripped of surrounding white space and then of
    trailing slashes, as [pre] followed by [seg], where [seg] has no slash and
    [pre] is empty or ends with a slash: [seg] is the final path segment. With
    at least 10 characters in [seg], [extract_meeting_id] returns [seg]; with
    fewer it raises the [ValueError] of the method. (By
    [final_segment_exists] every URL has such a segment, the split never comes
    back empty.) *)
Theorem extract_meeting_id_final_segment (url pre seg : string) :
  url_stripped url = pre +:+ seg ->
  pre = EmptyString \/ PyStr.last pre = Some "/"%char ->
  no_slash seg ->
  (10 <= String.length seg -> extract_meeting_id url = inr seg)
  /\ (String.length seg < 10 ->
      extract_meeting_id url =
        inl (ValueError ("Could not extract meeting ID from URL: " +:+ url_stripped url))).
Proof.
  intros Hurl Hpre Hseg. unfold extract_meeting_id.
  rewrite Hurl, (split_final_segment _ _ Hpre Hseg).
  split; intros Hlen.
  - apply Nat.ltb_ge in Hlen. by rewrite Hlen.
  - apply Nat.ltb_lt in Hlen. by rewrite Hlen.
Qed.

Lemma extract_meeting_id_final_segment_witness :
  extract_meeting_id " https://tldv.io/app/meetings/64f8a1b2c3d4e5f6a7b8c9d0/ "
  = inr "64f8a1b2c3d4e5f6a7b8c9d0"
  /\ extract_meeting_id "https://tldv.io/m/abc"
     = inl (ValueError "Could not extract meeting ID from URL: https://tldv.io/m/abc").
Proof.
  split.
  - apply (extract_meeting_id_final_segment _ "https://tldv.io/app/meetings/"
             "64f8a1b2c3d4e5f6a7b8c9d0"); [reflexivity|by right|reflexivity|].
    vm_compute; lia.
  - apply (extract_meeting_id_final_segment "https://tldv.io/m/abc"
             "https://tldv.io/m/" "abc"); [reflexivity|by right|reflexivity|].
    vm_compute; lia.
Defined.

(** ** [prepare_auth_token] *)

(** Does the trimmed token already carry one of the two prefixes? *)
Definition has_bearer_prefix (s : string) : bool :=
  PyStr.startswith "Bearer " s || PyStr.startswith "bearer " s.

Lemma prepare_auth_token_unfold t :
  prepare_auth_token t =
    if has_bearer_prefix (PyStr.strip t) then PyStr.strip t
    else "Bearer " +:+ PyStr.strip t.
Proof.
  unfold prepare_auth_token, has_bearer_prefix.
  by destruct (PyStr.startswith "Bearer " _), (PyStr.startswith "bearer " _).
Qed.

(** C5, as stated, fails: the empty token becomes ["Bearer "], whose
    trailing space the second call trims away, so that the prefix is not
    recognised and is added once more. *)
Lemma prepare_auth_token_not_idempotent :
  prepare_auth_token EmptyString = "Bearer "
  /\ prepare_auth_token (prepare_auth_token EmptyString) = "Bearer Bearer"
  /\ ~ (forall t, prepare_auth_token (prepare_auth_token t) = prepare_auth_token t).
Proof.
  split_and!; [done|done|].
  intros H. specialize (H EmptyString). vm_compute in H. discriminate.
Qed.

Lemma last_append s t :
  t <> EmptyString -> PyStr.last (s +:+ t) = PyStr.last t.
Proof.
  intros Ht. induction s as [|c r IH]; simpl; [done|].
  rewrite <- IH. destruct (r +:+ t) eqn:E; [|done].
  destruct r; simpl in E; [done|discriminate].
Qed.

Lemma strip_strip s : PyStr.strip (PyStr.strip s) = PyStr.strip s.
Proof. apply PyStrFacts.strip_idemp. Qed.

Lemma prefixed_has_prefix s : has_bearer_prefix ("Bearer " +:+ s) = true.
Proof. unfold has_bearer_prefix, PyStr.startswith. cbn. by destruct s. Qed.

Lemma strip_prefixed s :
  s <> EmptyString -> PyStr.strip s = s ->
  PyStr.strip ("Bearer " +:+ s) = "Bearer " +:+ s.
Proof.
  intros Hne Hs. apply PyStrFacts.strip_fixed; intros c.
  - simpl. by intros [= <-].
  - rewrite last_append by done. rewrite <- Hs. apply PyStrFacts.last_strip.
Qed.

(** C5, amended: [prepare_auth_token] trims the token and puts ["Bearer "]
    in front exactly when the trimmed token starts with neither ["Bearer "]
    nor ["bearer "]; the three examples of the specification hold; and
    applying it twice gives the same as applying it once for every token that
    is not empty after the trimming. *)
Theorem prepare_auth_token_amended :
  (forall t,
     (has_bearer_prefix (PyStr.strip t) = false ->
      prepare_auth_token t = "Bearer " +:+ PyStr.strip t)
     /\ (has_bearer_prefix (PyStr.strip t) = true ->
         prepare_auth_token t = PyStr.strip t))
  /\ prepare_auth_token "abc" = "Bearer abc"
  /\ prepare_auth_token "Bearer abc" = "Bearer abc"
  /\ prepare_auth_token "bearer abc" = "bearer abc"
  /\ (forall t, PyStr.strip t <> EmptyString ->
        prepare_auth_token (prepare_auth_token t) = prepare_auth_token t).
Proof.
  split_and!; try done.
  - intros t. rewrite prepare_auth_token_unfold.
    split; intros ->; done.
  - intros t Hne. rewrite (prepare_auth_token_unfold t).
    destruct (has_bearer_prefix (PyStr.strip t)) eqn:Hp.
    + rewrite prepare_auth_token_unfold, strip_strip. by rewrite Hp.
    + rewrite prepare_auth_token_unfold.
      rewrite strip_prefixed by (done || apply strip_strip).
      by rewrite prefixed_has_prefix.
Qed.

Lemma prepare_auth_token_amended_witness :
  PyStr.strip "  eyJhbGciOi.x.y " <> EmptyString
  /\ prepare_auth_token (prepare_auth_token "  eyJhbGciOi.x.y ")
     = prepare_auth_token "  eyJhbGciOi.x.y ".
Proof.
  split; [by vm_compute|].
  apply prepare_auth_token_amended. by vm_compute.
Defined.

(** ** [parse_meeting_info] *)

(** The member [key] of a JSON object; nothing has a member but an object. *)
Definition member (key : string) (v : json) : option json :=
  match v with JObj m => m !! key | _ => None end.

Definition is_object (v : json) : bool :=
  match v with JObj _ => true | _ => false end.

Definition object_if_present (o : option json) : bool :=
  match o with Some v => is_object v | None => true end.

(** The input of the parser as section 4.5 of the specification has it: a
    JSON object whose members [meeting] and [video] are objects (the method
    itself supplies an empty object for a member that is not there). *)
Definition well_shaped (data : json) : bool :=
  is_object data
  && object_if_present (member "meeting" data)
  && object_if_present (member "video" data).

(** The field [video.source]. *)
Definition video_source (data : json) : option json :=
  member "video" data ≫= member "source".

(** Absent, or empty in the sense of the test [not source_url]: [null],
    [false], [0], the empty string, the empty array, the empty object. *)
Definition absent_or_empty (o : option json) : bool :=
  match o with Some v => negb (truthy v) | None => true end.

Lemma py_get_object m key dflt :
  py_get (JObj m) key dflt = inr (default dflt (m !! key)).
Proof. done. Qed.

Lemma parse_date_not_value_error now v msg :
  parse_date now v <> inl (ValueError msg).
Proof.
  unfold parse_date.
  destruct (if truthy v then strptime v else inr now) as [[]|]; done.
Qed.

(** What [parse_meeting_info] has read when it returns or raises a
    [ValueError]: the input object and the value of [video.get("source")]. *)
Lemma parse_meeting_info_inv now data :
  match parse_meeting_info now data with
  | inr info =>
      exists md video,
        data = JObj md /\ default (JObj ∅) (md !! "video") = JObj video
        /\ source_url info = default JNull (video !! "source")
        /\ truthy (source_url info) = true
  | inl (ValueError _) =>
      exists md video,
        data = JObj md /\ default (JObj ∅) (md !! "video") = JObj video
        /\ truthy (default JNull (video !! "source")) = false
  | inl _ => True
  end.
Proof.
  unfold parse_meeting_info.
  destruct data as [| | | | |md]; try done.
  cbn [py_get mbind result_bind].
  destruct (default (JObj ∅) (md !! "meeting")) as [| | | | |meeting]; try done.
  destruct (default (JObj ∅) (md !! "video")) as [| | | | |video] eqn:Ev; try done.
  cbn [py_get mbind result_bind].
  destruct (truthy (default JNull (video !! "source"))) eqn:Et; simpl; [|by eauto].
  destruct (parse_date now _) as [e|d] eqn:Ed; simpl.
  { destruct e; try done. by apply parse_date_not_value_error in Ed. }
  destruct (sanitize_filename_of _) as [e|n] eqn:En; simpl.
  { destruct (default (JStr "TLDV_Meeting") (meeting !! "name")); simpl in En;
      by simplify_eq. }
  by eauto 10.
Qed.

Lemma video_source_read md video :
  default (JObj ∅) (md !! "video") = JObj video ->
  absent_or_empty (video_source (JObj md))
  = negb (truthy (default JNull (video !! "source")))
  /\ (truthy (default JNull (video !! "source")) = true ->
      video_source (JObj md) = Some (default JNull (video !! "source"))).
Proof.
  unfold video_source. simpl. destruct (md !! "video") as [v|]; simpl.
  - intros ->. simpl. destruct (video !! "source"); simpl; done.
  - intros [= <-]. rewrite lookup_empty. done.
Qed.

(** The part of the claim about the source that holds. The method raises
    the [ValueError] for the missing source only when [video.source] is absent
    or empty (false for Python: [null], the empty string, ...); on an input of
    the shape the specification gives (a JSON object whose [meeting] and
    [video] are objects when present) it always raises it then. Whenever the
    method returns, the [source_url] of the result is the value of
    [video.source], unchanged, and that value is not empty. *)
Theorem parse_meeting_info_source (now : datetime) (data : json) :
  (parse_meeting_info now data = inl missing_source ->
   absent_or_empty (video_source data) = true)
  /\ (well_shaped data = true ->
      absent_or_empty (video_source data) = true ->
      parse_meeting_info now data = inl missing_source)
  /\ (forall info, parse_meeting_info now data = inr info ->
        video_source data = Some (source_url info)
        /\ absent_or_empty (video_source data) = false).
Proof.
  pose proof (parse_meeting_info_inv now data) as Hinv.
  split_and!.
  - intros H. rewrite H in Hinv. destruct Hinv as (md & vd & -> & Ev & Hs).
    destruct (video_source_read md vd Ev) as [-> _]. by rewrite Hs.
  - clear Hinv. intros Hshape Habs.
    destruct data as [| | | | |md]; try done.
    unfold well_shaped in Hshape. simpl in Hshape.
    apply andb_true_iff in Hshape as [Hm Hv].
    unfold parse_meeting_info. rewrite !py_get_object. cbn [mbind result_bind].
    assert (exists mt, default (JObj ∅) (md !! "meeting") = JObj mt) as [mt ->].
    { destruct (md !! "meeting") as [[]|]; simpl in *; try done; eauto. }
    assert (exists vd, default (JObj ∅) (md !! "video") = JObj vd) as [vd Ev].
    { destruct (md !! "video") as [[]|]; simpl in *; try done; eauto. }
    rewrite Ev, !py_get_object. cbn [mbind result_bind].
    destruct (video_source_read md vd Ev) as [E _]. rewrite E in Habs.
    by rewrite Habs.
  - intros info H. rewrite H in Hinv.
    destruct Hinv as (md & vd & -> & Ev & Hsrc & Ht).
    destruct (video_source_read md vd Ev) as [E1 E2].
    rewrite Hsrc in Ht. rewrite E1, (E2 Ht), Hsrc, Ht. done.
Qed.

(** A response without [video.source], and a clock. *)
Definition sample_now : datetime := mk_datetime 2025 1 2 3 4 5 6.

Definition response_without_source : json :=
  JObj {[ "meeting" := JObj {[ "name" := JStr "Weekly sync" ]};
          "video" := JObj ∅ ]}.

Lemma parse_meeting_info_source_witness :
  well_shaped response_without_source = true
  /\ absent_or_empty (video_source response_without_source) = true
  /\ parse_meeting_info sample_now response_without_source = inl missing_source.
Proof.
  split_and!; [reflexivity|reflexivity|].
  apply (parse_meeting_info_source sample_now response_without_source);
    reflexivity.
Defined.

(** A response whose [video] is [null]. *)
Definition response_with_null_video : json :=
  JObj {[ "meeting" := JObj {[ "name" := JStr "Weekly sync" ]};
          "video" := JNull ]}.

(** C6: the code where the claim fails. When the member [video] of the
    response is there and is not an object ([null], a text, a list, ...),
    [video.source] is absent, yet the method does not raise the [ValueError]
    for the missing source: the default of [data.get("video", {})] (line 85)
    is not taken for a member that is there, and [video.get] (line 89) raises
    [AttributeError]. *)
Theorem parse_meeting_info_video_not_object (now : datetime)
    (md : gmap string json) (video : json) :
  md !! "video" = Some video -> is_object video = false ->
  object_if_present (md !! "meeting") = true ->
  absent_or_empty (video_source (JObj md)) = true
  /\ parse_meeting_info now (JObj md)
     = inl (AttributeError ("'" +:+ type_name video +:+ "' object has no attribute 'get'"))
  /\ parse_meeting_info now (JObj md) <> inl missing_source.
Proof.
  intros Hv Hobj Hm.
  assert (parse_meeting_info now (JObj md)
          = inl (AttributeError ("'" +:+ type_name video
                                 +:+ "' object has no attribute 'get'"))) as E.
  { unfold parse_meeting_info. cbn [py_get mbind result_bind]. rewrite Hv.
    cbn [default from_option].
    assert (exists mt, default (JObj ∅) (md !! "meeting") = JObj mt) as [mt ->].
    { destruct (md !! "meeting") as [[]|]; simpl in *; try done; eauto. }
    cbn [py_get mbind result_bind]. by destruct video. }
  split_and!; [|done|by rewrite E].
  unfold video_source. cbn [member mbind option_bind]. rewrite Hv.
  by destruct video.
Qed.

Lemma parse_meeting_info_video_not_object_witness :
  absent_or_empty (video_source response_with_null_video) = true
  /\ parse_meeting_info sample_now response_with_null_video
     = inl (AttributeError "'NoneType' object has no attribute 'get'").
Proof.
  destruct (parse_meeting_info_video_not_object sample_now
              {[ "meeting" := JObj {[ "name" := JStr "Weekly sync" ]};
                 "video" := JNull ]} JNull) as (H1 & H2 & _);
    [reflexivity|reflexivity|reflexivity|].
  split; [exact H1|exact H2].
Defined.

(** *** The date *)

Lemma strptime_iso_raises_value_error s e :
  Strptime.strptime_iso s = inl e -> exists msg, e = ValueError msg.
Proof.
  unfold Strptime.strptime_iso.
  destruct (Strptime.iso_pattern s) as [|[d rest] ?]; [intros [= <-]; eauto|].
  destruct (negb (PyStr.is_empty rest)); [intros [= <-]; eauto|].
  destruct (Strptime.valid d); [done|intros [= <-]; eauto].
Qed.

(** A [createdAt] that is a string never makes the date fail: the parsed
    date when the string matches the format, the clock otherwise. *)
Lemma parse_date_text now s :
  parse_date now (JStr s) =
    inr (match Strptime.strptime_iso s with inr d => d | inl _ => now end).
Proof.
  unfold parse_date. simpl.
  destruct s as [|c r]; [done|]. simpl.
  destruct (Strptime.strptime_iso (String c r)) as [e|d] eqn:E; [|done].
  by destruct (strptime_iso_raises_value_error _ _ E) as [msg ->].
Qed.

(** An absent [createdAt] ([None] for the method) gives the clock. *)
Lemma parse_date_absent now : parse_date now JNull = inr now.
Proof. done. Qed.

(** The example of the specification. *)
Lemma strptime_iso_example :
  Strptime.strptime_iso "2024-03-15T10:30:00.000Z"
  = inr (mk_datetime 2024 3 15 10 30 0 0).
Proof. reflexivity. Qed.

(** With a name and a date that are strings (or absent) and a source, the
    method returns, and the timestamp is the one of the parsed date or of the
    clock. *)
Lemma parse_meeting_info_text_date now md meeting video src :
  default (JObj ∅) (md !! "meeting") = JObj meeting ->
  default (JObj ∅) (md !! "video") = JObj video ->
  (meeting !! "name" = None \/ exists n, meeting !! "name" = Some (JStr n)) ->
  video !! "source" = Some src -> truthy src = true ->
  (meeting !! "createdAt" = None ->
   exists info, parse_meeting_info now (JObj md) = inr info
                /\ timestamp info = strftime now)
  /\ (forall s, meeting !! "createdAt" = Some (JStr s) ->
      exists info, parse_meeting_info now (JObj md) = inr info
        /\ timestamp info =
             strftime (match Strptime.strptime_iso s with inr d => d | inl _ => now end)).
Proof.
  intros Em Ev Hname Hsrc Ht. unfold parse_meeting_info.
  cbn [py_get mbind result_bind]. rewrite Em, Ev.
  cbn [py_get mbind result_bind]. rewrite Hsrc. simpl default at 3.
  assert (exists n, sanitize_filename_of (default (JStr "TLDV_Meeting") (meeting !! "name")) = inr n)
    as [n Hn].
  { destruct Hname as [->|[n ->]]; simpl; eauto. }
  split.
  - intros ->. simpl. rewrite Ht. simpl. rewrite Hn. simpl. eauto.
  - intros s ->. simpl default. rewrite Ht. cbn [negb].
    rewrite parse_date_text. cbn [mbind result_bind]. rewrite Hn. simpl. eauto.
Qed.

(** *** Dates in the format of the interface *)

Module StrptimeFacts.
Import Strptime.

(** The first match of [p] on [s] has the value [a] and leaves [r]. *)
Definition first_match {A} (p : re A) (s : string) (a : A) (r : string) : Prop :=
  exists others, p s = (a, r) :: others.

Lemma first_ret {A} (a : A) s : first_match (re_ret a) s a s.
Proof. by exists []. Qed.

Lemma first_bind {A B} (p : re A) (f : A -> re B) s a r b r' :
  first_match p s a r -> first_match (f a) r b r' ->
  first_match (re_bind p f) s b r'.
Proof.
  intros [tl Hp] [tl' Hf]. unfold first_match, re_bind.
  rewrite Hp. simpl. rewrite Hf. by eexists.
Qed.

Lemma first_lit c r : first_match (lit c) (String c r) tt r.
Proof. exists []. unfold lit. by rewrite Ascii.eqb_refl. Qed.

Lemma append_assoc s t u : (s +:+ t) +:+ u = s +:+ (t +:+ u).
Proof. induction s; simpl; congruence. Qed.

Lemma digit_digit_char d r :
  d < 10 -> digit 0 9 (String (digit_char d) r) = [(d, r)].
Proof. intros H. do 10 (destruct d as [|d]; [reflexivity|]). lia. Qed.

Lemma two_digits_pad2 k r :
  k < 100 -> two (digit 0 9) (digit 0 9) (pad2 k +:+ r) = [(k, r)].
Proof. intros H. do 100 (destruct k as [|k]; [reflexivity|]). lia. Qed.

(** A year of four digits. *)
Lemma dir_Y_pad4 y r : y < 100 * 100 -> first_match dir_Y (pad4 y +:+ r) y r.
Proof.
  intros H. exists []. unfold dir_Y, pad4, re_bind.
  assert (y / 100 < 100) by (apply Nat.Div0.div_lt_upper_bound; lia).
  assert (y mod 100 < 100) by (apply Nat.mod_upper_bound; lia).
  rewrite append_assoc, two_digits_pad2 by done.
  cbn [flat_map app]. rewrite two_digits_pad2 by done.
  cbn [flat_map app re_ret]. do 3 f_equal.
  rewrite (Nat.div_mod_eq y 100) at 3. lia.
Qed.

Lemma dir_m_pad2 n r : 1 <= n <= 12 -> first_match dir_m (pad2 n +:+ r) n r.
Proof.
  intros H. do 13 (destruct n as [|n]; [first [lia|by eexists]|]). lia.
Qed.

Lemma dir_d_pad2 n r : 1 <= n <= 31 -> first_match dir_d (pad2 n +:+ r) n r.
Proof.
  intros H. do 32 (destruct n as [|n]; [first [lia|by eexists]|]). lia.
Qed.

Lemma dir_H_pad2 n r : n < 24 -> first_match dir_H (pad2 n +:+ r) n r.
Proof.
  intros H. do 24 (destruct n as [|n]; [by eexists|]). lia.
Qed.

Lemma dir_M_pad2 n r : n < 60 -> first_match dir_M (pad2 n +:+ r) n r.
Proof.
  intros H. do 60 (destruct n as [|n]; [by eexists|]). lia.
Qed.

Lemma dir_S_pad2 n r : n < 60 -> first_match dir_S (pad2 n +:+ r) n r.
Proof.
  intros H. do 60 (destruct n as [|n]; [by eexists|]). lia.
Qed.

(** The text of a list of digits. *)
Fixpoint digits_text (ds : list nat) : string :=
  match ds with
  | [] => EmptyString
  | d :: ds' => String (digit_char d) (digits_text ds')
  end.

Lemma digits_upto_text ds n acc r :
  length ds <= n -> Forall (fun d => d < 10) ds ->
  exists us, first_match (digits_upto n acc) (digits_text ds +:+ String "Z" r)
               us (String "Z" r).
Proof.
  revert n acc. induction ds as [|d ds IH]; intros n acc Hlen Hds.
  - destruct n as [|n]; simpl; [by eexists; apply first_ret|].
    eexists. by exists [].
  - destruct n as [|n]; [simpl in Hlen; lia|].
    apply Forall_cons in Hds as [Hd Hds].
    destruct (IH n (10 * acc + N.of_nat d)%N) as (us & tl & E);
      [simpl in Hlen; lia|done|].
    exists us. cbn [digits_upto digits_text String.append].
    unfold first_match, re_alt, re_bind. rewrite digit_digit_char by done.
    cbn [flat_map app]. rewrite E. by eexists.
Qed.

Lemma dir_f_text ds r :
  1 <= length ds <= 6 -> Forall (fun d => d < 10) ds ->
  exists us, first_match dir_f (digits_text ds +:+ String "Z" r) us (String "Z" r).
Proof.
  intros Hlen Hds. destruct ds as [|d ds]; [simpl in Hlen; lia|].
  apply Forall_cons in Hds as [Hd Hds].
  destruct (digits_upto_text ds 5 (N.of_nat d) r) as (us & tl & E);
    [simpl in Hlen; lia|done|].
  exists us. unfold dir_f, first_match, re_bind.
  cbn [digits_text String.append]. rewrite digit_digit_char by done.
  cbn [flat_map app]. rewrite E. by eexists.
Qed.

(** The text of a date in the format of line 97, with the digits [ds] for
    the fraction of the second. *)
Definition iso_text (y m d h mi sec : nat) (ds : list nat) : string :=
  pad4 y +:+ "-" +:+ pad2 m +:+ "-" +:+ pad2 d +:+ "T"
  +:+ pad2 h +:+ ":" +:+ pad2 mi +:+ ":" +:+ pad2 sec +:+ "."
  +:+ digits_text ds +:+ "Z".

(** [strptime] reads back every date of the calendar written that way. *)
Lemma strptime_iso_text y m d h mi sec ds :
  1 <= y < 100 * 100 -> 1 <= m <= 12 -> 1 <= d <= days_in_month y m ->
  h < 24 -> mi < 60 -> sec < 60 ->
  1 <= length ds <= 6 -> Forall (fun d => d < 10) ds ->
  exists us,
    strptime_iso (iso_text y m d h mi sec ds) = inr (mk_datetime y m d h mi sec us).
Proof.
  intros Hy Hm Hd Hh Hmi Hsec Hlen Hds.
  destruct (dir_f_text ds EmptyString Hlen Hds) as (us & Hf).
  assert (d <= 31).
  { etrans; [apply Hd|]. unfold days_in_month.
    do 13 (destruct m as [|m]; [try destruct (is_leap y); lia|]). lia. }
  exists us.
  assert (first_match iso_pattern (iso_text y m d h mi sec ds)
            (mk_datetime y m d h mi sec us) EmptyString) as [tl E].
  { unfold iso_pattern, iso_text.
    eapply first_bind; [apply dir_Y_pad4; lia|].
    eapply first_bind; [apply first_lit|].
    eapply first_bind; [by apply dir_m_pad2|].
    eapply first_bind; [apply first_lit|].
    eapply first_bind; [apply dir_d_pad2; lia|].
    eapply first_bind; [apply first_lit|].
    eapply first_bind; [by apply dir_H_pad2|].
    eapply first_bind; [apply first_lit|].
    eapply first_bind; [by apply dir_M_pad2|].
    eapply first_bind; [apply first_lit|].
    eapply first_bind; [by apply dir_S_pad2|].
    eapply first_bind; [apply first_lit|].
    eapply first_bind; [apply Hf|].
    eapply first_bind; [apply first_lit|].
    apply first_ret. }
  unfold strptime_iso. rewrite E. simpl negb. cbv iota.
  unfold valid. simpl.
  destruct y as [|y]; [lia|]. cbn [Nat.leb].
  rewrite (proj2 (Nat.leb_le _ _)) by lia.
  rewrite (proj2 (Nat.leb_le sec 59)) by lia. done.
Qed.

End StrptimeFacts.

Definition response_with_date : json :=
  JObj {[ "meeting" := JObj {[ "name" := JStr "Weekly sync";
                               "createdAt" := JStr "2024-03-15T10:30:00.000Z" ]};
          "video" := JObj {[ "source" := JStr "https://media.tldv.io/a/playlist.m3u8" ]} ]}.

Lemma parse_meeting_info_example now :
  exists info, parse_meeting_info now response_with_date = inr info
               /\ timestamp info = "2024-03-15_10-30-00".
Proof. eexists. split; reflexivity. Qed.

(** A year of four digits is printed as it is read. *)
Lemma year_text_four y : 1000 <= y -> year_text y = pad4 y.
Proof.
  intros H. unfold year_text.
  destruct (Nat.ltb_spec y 10); [lia|].
  destruct (Nat.ltb_spec y 100); [lia|].
  destruct (Nat.ltb_spec y 1000); [lia|done].
Qed.

(** With a name that is a string (or absent), a source, and a [createdAt]
    that is the text of a date of the calendar in the format of the interface,
    the method returns and the timestamp is made of the digits of that date
    (for a year before 1000, without the zeros the year is written with). *)
Lemma parse_meeting_info_iso_timestamp now md meeting video src y m d h mi sec ds :
  default (JObj ∅) (md !! "meeting") = JObj meeting ->
  default (JObj ∅) (md !! "video") = JObj video ->
  (meeting !! "name" = None \/ exists n, meeting !! "name" = Some (JStr n)) ->
  video !! "source" = Some src -> truthy src = true ->
  meeting !! "createdAt" = Some (JStr (StrptimeFacts.iso_text y m d h mi sec ds)) ->
  1 <= y < 100 * 100 -> 1 <= m <= 12 -> 1 <= d <= Strptime.days_in_month y m ->
  h < 24 -> mi < 60 -> sec < 60 ->
  1 <= length ds <= 6 -> Forall (fun d => d < 10) ds ->
  exists info,
    parse_meeting_info now (JObj md) = inr info
    /\ timestamp info =
         year_text y +:+ "-" +:+ pad2 m +:+ "-" +:+ pad2 d +:+ "_"
         +:+ pad2 h +:+ "-" +:+ pad2 mi +:+ "-" +:+ pad2 sec.
Proof.
  intros Em Ev Hname Hsrc Ht Hc Hy Hm Hd Hh Hmi Hsec Hlen Hds.
  destruct (parse_meeting_info_text_date now md meeting video src Em Ev Hname Hsrc Ht)
    as [_ Htext].
  destruct (Htext _ Hc) as (info & E & Hts).
  destruct (StrptimeFacts.strptime_iso_text y m d h mi sec ds) as (us & Eus); try done.
  rewrite Eus in Hts. by exists info.
Qed.

(** The same response with a number for [createdAt] (an epoch in
    milliseconds, say). *)
Definition response_with_numeric_date : json :=
  JObj {[ "meeting" := JObj {[ "name" := JStr "Weekly sync";
                               "createdAt" := JNum 1710498600000 ]};
          "video" := JObj {[ "source" := JStr "https://media.tldv.io/a/playlist.m3u8" ]} ]}.

(** C7: the code at the failing input. The response is well shaped and has
    its source, its [createdAt] is a number: [strptime] raises [TypeError],
    which the clause [except ValueError] (line 100) does not catch, and
    [parse_meeting_info] fails instead of taking the clock. *)
Lemma parse_meeting_info_numeric_date (now : datetime) :
  well_shaped response_with_numeric_date = true
  /\ absent_or_empty (video_source response_with_numeric_date) = false
  /\ parse_meeting_info now response_with_numeric_date
     = inl (TypeError "strptime() argument 1 must be str, not int").
Proof. split_and!; reflexivity. Qed.

(** ** Paths *)

Definition no_char (c : ascii) (s : string) : Prop :=
  PyStr.all (fun d => negb (Ascii.eqb d c)) s = true.

Lemma no_char_append c s t : no_char c s -> no_char c t -> no_char c (s +:+ t).
Proof.
  unfold no_char. intros Hs Ht. induction s as [|d r IH]; simpl in *; [done|].
  apply andb_true_iff in Hs as [Hd Hr]. by rewrite Hd, IH.
Qed.

Lemma split_pieces sep s :
  Forall (no_char sep) (PyStr.split sep s).
Proof.
  unfold no_char. induction s as [|c r IH]; simpl.
  - by repeat constructor.
  - destruct (Ascii.eqb c sep) eqn:E.
    + by constructor.
    + destruct (PyStr.split sep r) as [|h t]; [by repeat constructor; simpl; rewrite E|].
      apply Forall_cons in IH as [Hh Ht]. constructor; [|done].
      simpl. by rewrite E, Hh.
Qed.

Lemma split_piece sep u : no_char sep u -> PyStr.split sep u = [u].
Proof.
  unfold no_char. induction u as [|c r IH]; simpl; [done|].
  intros [Hc Hr]%andb_true_iff. apply negb_true_iff in Hc. by rewrite Hc, (IH Hr).
Qed.

Lemma split_cons sep u rest :
  no_char sep u ->
  PyStr.split sep (u +:+ String sep rest) = u :: PyStr.split sep rest.
Proof.
  unfold no_char. induction u as [|c r IH]; simpl.
  - intros _. by rewrite Ascii.eqb_refl.
  - intros [Hc Hr]%andb_true_iff. apply negb_true_iff in Hc.
    by rewrite Hc, (IH Hr).
Qed.

Lemma split_sep sep rest :
  PyStr.split sep (String sep rest) = EmptyString :: PyStr.split sep rest.
Proof. simpl. by rewrite Ascii.eqb_refl. Qed.

Module PyPathFacts.
Import PyPath.

(** The roots and the parts a path can have. *)
Definition is_root (r : string) : Prop :=
  r = EmptyString \/ r = "/" \/ r = "//".

Definition part (x : string) : Prop := is_part x = true /\ no_char "/" x.

Lemma root_is_root s : is_root (root s).
Proof.
  unfold is_root, root.
  destruct s as [|c1 [|c2 [|c3 s]]]; repeat case_match; auto.
Qed.

Lemma parts_part s : Forall part (parts s).
Proof.
  unfold parts. apply Forall_forall. intros x Hx.
  apply list_elem_of_In, List.filter_In in Hx as [Hin Hp].
  split; [done|].
  apply list_elem_of_In in Hin.
  by apply (proj1 (Forall_forall _ _) (split_pieces "/" s)).
Qed.

Lemma filter_parts ps : Forall part ps -> List.filter is_part ps = ps.
Proof.
  induction 1 as [|x ps [Hx _] _ IH]; simpl; [done|]. by rewrite Hx, IH.
Qed.

Lemma part_head x : part x -> exists c r, x = String c r /\ Ascii.eqb c "/" = false.
Proof.
  intros [Hp Hs]. destruct x as [|c r]; [done|].
  exists c, r. split; [done|].
  unfold no_char in Hs. simpl in Hs. apply andb_true_iff in Hs as [Hc _].
  by apply negb_true_iff in Hc.
Qed.

Lemma split_join_parts x ps :
  Forall part (x :: ps) -> PyStr.split "/" (join_parts (x :: ps)) = x :: ps.
Proof.
  revert x. induction ps as [|y ps IH]; intros x H.
  - apply split_piece. by apply Forall_cons in H as [[_ ?] _].
  - apply Forall_cons in H as [[_ Hx] H].
    change (join_parts (x :: y :: ps)) with (x +:+ String "/" (join_parts (y :: ps))).
    by rewrite (split_cons _ _ _ Hx), (IH _ H).
Qed.

Lemma join_parts_head x ps :
  part x -> exists c r, join_parts (x :: ps) = String c r /\ Ascii.eqb c "/" = false.
Proof.
  intros (c & r & -> & Hc)%part_head. destruct ps; simpl; eauto.
Qed.

Lemma root_relative c s : Ascii.eqb c "/" = false -> root (String c s) = EmptyString.
Proof. intros H. destruct s as [|? [|? ?]]; simpl; by rewrite H. Qed.

Lemma root_one c s :
  Ascii.eqb c "/" = false -> root (String "/" (String c s)) = "/".
Proof. intros H. destruct s as [|? ?]; simpl; by rewrite H. Qed.

Lemma root_two c s :
  Ascii.eqb c "/" = false -> root (String "/" (String "/" (String c s))) = "//".
Proof. intros H. simpl. by rewrite H. Qed.

(** Reading the text of a path gives its root and its parts again. *)
Lemma read_text r ps :
  is_root r -> Forall part ps ->
  root (text r ps) = r /\ parts (text r ps) = ps.
Proof.
  intros Hr Hps. destruct ps as [|x ps].
  - destruct Hr as [->|[->| ->]]; by vm_compute.
  - pose proof (split_join_parts x ps Hps) as Hsplit.
    apply Forall_cons in Hps as Hps'. destruct Hps' as [Hx _].
    destruct (join_parts_head x ps Hx) as (c & s & E & Hc).
    pose proof (filter_parts _ Hps) as Hf.
    unfold text, parts. rewrite E in *.
    destruct Hr as [->|[->| ->]].
    + change (EmptyString +:+ String c s) with (String c s).
      cbn [PyStr.is_empty]. rewrite Hsplit. by rewrite root_relative.
    + change ("/" +:+ String c s) with (String "/" (String c s)).
      cbn [PyStr.is_empty]. rewrite root_one by done.
      by rewrite split_sep, Hsplit.
    + change ("//" +:+ String c s) with (String "/" (String "/" (String c s))).
      cbn [PyStr.is_empty]. rewrite root_two by done.
      by rewrite !split_sep, Hsplit.
Qed.

Lemma path_text r ps :
  is_root r -> Forall part ps -> path (text r ps) = text r ps.
Proof.
  intros Hr Hps. unfold path. by destruct (read_text r ps Hr Hps) as [-> ->].
Qed.

(** [Path(Path(s))] is [Path(s)]. *)
Lemma path_path s : path (path s) = path s.
Proof. apply path_text; [apply root_is_root|apply parts_part]. Qed.

(** A path joined with anything is a path. *)
Lemma path_join p name : path (join p name) = join p name.
Proof.
  unfold join. destruct (PyStr.is_empty (root name)); [|apply path_path].
  apply path_text; [apply root_is_root|].
  apply Forall_app. split; apply parts_part.
Qed.

(** A file name: one part, as a text for [Path]. *)
Lemma part_read x : part x -> root x = EmptyString /\ parts x = [x].
Proof.
  intros Hx. destruct (read_text EmptyString [x]) as [H1 H2];
    [by left|by apply Forall_singleton|].
  destruct (part_head x Hx) as (c & r & -> & _). done.
Qed.

Lemma join_file p file :
  part file -> join p file = text (root p) (parts p ++ [file]).
Proof.
  intros Hf. unfold join. by destruct (part_read file Hf) as [-> ->].
Qed.

Lemma join_file_read p file :
  part file ->
  root (join p file) = root p /\ parts (join p file) = parts p ++ [file].
Proof.
  intros Hf. rewrite (join_file _ _ Hf). apply read_text; [apply root_is_root|].
  apply Forall_app. split; [apply parts_part|by apply Forall_singleton].
Qed.

(** [(Path(p) / file).parent] is [Path(p)], and its name is [file]. *)
Lemma parent_join p file : part file -> parent (join p file) = path p.
Proof.
  intros Hf. unfold parent. destruct (join_file_read p file Hf) as [-> ->].
  by rewrite removelast_last.
Qed.

Lemma name_join p file : part file -> name (join p file) = file.
Proof.
  intros Hf. unfold name. destruct (join_file_read p file Hf) as [_ ->].
  by rewrite last_last.
Qed.

Lemma join_parts_snoc ps x t :
  join_parts (ps ++ [x]) +:+ t = join_parts (ps ++ [x +:+ t]).
Proof.
  induction ps as [|y ps IH]; [done|].
  change ((y :: ps) ++ [x]) with (y :: (ps ++ [x])).
  change ((y :: ps) ++ [x +:+ t]) with (y :: (ps ++ [x +:+ t])).
  destruct (ps ++ [x]) as [|z l] eqn:E1; [by destruct ps|].
  destruct (ps ++ [x +:+ t]) as [|z' l'] eqn:E2; [by destruct ps|].
  cbn [join_parts] in *. rewrite <- IH.
  clear. induction y as [|c y IH]; simpl; [done|]. by rewrite IH.
Qed.

Lemma is_empty_append r j :
  PyStr.is_empty j = false -> PyStr.is_empty (r +:+ j) = false.
Proof. by destruct r. Qed.

Lemma join_parts_last ps x :
  PyStr.is_empty x = false -> PyStr.is_empty (join_parts (ps ++ [x])) = false.
Proof.
  intros Hx. destruct ps as [|y ps]; [done|].
  change ((y :: ps) ++ [x]) with (y :: (ps ++ [x])).
  destruct (ps ++ [x]) as [|z l] eqn:E; [by destruct ps|].
  cbn [join_parts]. by apply is_empty_append.
Qed.

(** Text written behind a path whose last part is a file name. *)
Lemma join_file_append p file t :
  part file -> part (file +:+ t) -> join p file +:+ t = join p (file +:+ t).
Proof.
  intros Hf Hft. rewrite !join_file by done. unfold text.
  destruct (part_head file Hf) as (c & r & -> & Hc).
  rewrite !is_empty_append by (by apply join_parts_last).
  rewrite <- join_parts_snoc.
  generalize (join_parts (parts p ++ [String c r])). intros j.
  induction (root p) as [|d s IH]; simpl; [done|]. by rewrite IH.
Qed.

End PyPathFacts.

(** ** Calls and their traces *)

Lemma bind_raised {A B} (f : A -> IO B) (m : IO A) e t :
  m = (inl e, t) -> m ≫= f = (inl e, t).
Proof. by intros ->. Qed.

Lemma bind_returned {A B} (f : A -> IO B) (m : IO A) a t :
  m = (inr a, t) -> m ≫= f = (io_result (f a), t ++ io_trace (f a)).
Proof. intros ->. simpl. by destruct (f a). Qed.

(** ** [check_downloader_availability] *)

(** The probe of a tool: [--version] with ten seconds. *)
Definition version_probe (W : World) (d : downloader) : run_outcome :=
  subprocess_run W [cmd d; "--version"] 10.

(** The probe succeeds: the process ends with return code 0. *)
Definition probe_succeeds (o : run_outcome) : bool :=
  match o with
  | Completed returncode => (returncode =? 0)%Z
  | RunRaised _ => false
  end.

(** The probe fails: another return code, or one of the exceptions of line
    134: the time is over, the program is not found, another error of the
    [subprocess] module. *)
Definition probe_fails (o : run_outcome) : bool :=
  match o with
  | Completed returncode => negb (returncode =? 0)%Z
  | RunRaised (TimeoutExpired _ | FileNotFoundError _ | SubprocessError _) => true
  | RunRaised _ => false
  end.

(** Either of the two: the probe raises nothing that line 134 lets through. *)
Definition probe_answers (o : run_outcome) : bool :=
  probe_succeeds o || probe_fails o.

Definition probe_event (d : downloader) : event := EvRun [cmd d; "--version"] 10.

Lemma probe_eq W d :
  probe W d =
    (match version_probe W d with
     | Completed returncode => inr (returncode =? 0)%Z
     | RunRaised e => if probe_fails (RunRaised e) then inr false else inl e
     end, [probe_event d]).
Proof.
  unfold probe, run, version_probe, probe_event. simpl.
  destruct (subprocess_run W _ _) as [rc|[]]; reflexivity.
Qed.

(** The result and the trace of the selection, by the outcome of the two
    probes. *)
Lemma check_downloader_availability_eq W :
  check_downloader_availability W =
    match version_probe W primary with
    | RunRaised e1 =>
        if probe_fails (RunRaised e1) then
          match version_probe W fallback with
          | RunRaised e2 =>
              if probe_fails (RunRaised e2)
              then (inl no_downloader, [probe_event primary; probe_event fallback])
              else (inl e2, [probe_event primary; probe_event fallback])
          | Completed rc2 =>
              (if (rc2 =? 0)%Z then inr fallback else inl no_downloader,
               [probe_event primary; probe_event fallback])
          end
        else (inl e1, [probe_event primary])
    | Completed rc1 =>
        match version_probe W fallback with
        | RunRaised e2 =>
            if probe_fails (RunRaised e2)
            then (if (rc1 =? 0)%Z then inr primary else inl no_downloader,
                  [probe_event primary; probe_event fallback])
            else (inl e2, [probe_event primary; probe_event fallback])
        | Completed rc2 =>
            (if (rc1 =? 0)%Z then inr primary
             else if (rc2 =? 0)%Z then inr fallback else inl no_downloader,
             [probe_event primary; probe_event fallback])
        end
    end.
Proof.
  unfold check_downloader_availability, downloaders.
  cbn [probe_all]. rewrite !probe_eq.
  destruct (version_probe W primary) as [rc1|e1];
    [|destruct (probe_fails (RunRaised e1)); [|reflexivity]];
    (destruct (version_probe W fallback) as [rc2|e2];
     [|destruct (probe_fails (RunRaised e2))]);
    try destruct (rc1 =? 0)%Z; try destruct (rc2 =? 0)%Z; reflexivity.
Qed.

(** The part of the claim about the selection that holds. When each probe
    either succeeds or fails in a way the method catches (another return code,
    program not found, time over), [check_downloader_availability] returns the
    primary tool whenever its probe succeeds, whatever the probe of the
    fallback says; it returns the fallback exactly when the primary probe
    fails and the fallback probe succeeds; and it raises the [RuntimeError]
    for no downloader exactly when both probes fail. *)
Theorem check_downloader_availability_priority (W : World) :
  probe_answers (version_probe W primary) = true ->
  probe_answers (version_probe W fallback) = true ->
  let r := io_result (check_downloader_availability W) in
  (probe_succeeds (version_probe W primary) = true -> r = inr primary)
  /\ (r = inr fallback <->
      probe_fails (version_probe W primary) = true
      /\ probe_succeeds (version_probe W fallback) = true)
  /\ (r = inl no_downloader <->
      probe_fails (version_probe W primary) = true
      /\ probe_fails (version_probe W fallback) = true).
Proof.
  intros H1 H2 r. subst r. rewrite check_downloader_availability_eq.
  unfold probe_answers in *.
  destruct (version_probe W primary) as [rc1|e1];
    destruct (version_probe W fallback) as [rc2|e2]; simpl in *.
  - destruct (rc1 =? 0)%Z, (rc2 =? 0)%Z; simpl; intuition (congruence || done).
  - rewrite H2. destruct (rc1 =? 0)%Z; simpl; intuition (congruence || done).
  - rewrite H1. destruct (rc2 =? 0)%Z; simpl; intuition (congruence || done).
  - rewrite H1, H2. simpl. intuition (congruence || done).
Qed.

(** A world where only the fallback is installed. *)
Definition world_ffmpeg_only : World :=
  mk_world "/home/user" (fun _ => None)
    (fun _ _ => Response 200 EmptyString (Some response_with_date))
    sample_now
    (fun argv _ =>
       match argv with
       | "N_m3u8DL-RE" :: _ => RunRaised (FileNotFoundError "No such file or directory")
       | _ => Completed 0
       end)
    (fun _ => true) (fun _ _ => None).

Lemma check_downloader_availability_priority_witness :
  probe_answers (version_probe world_ffmpeg_only primary) = true
  /\ probe_answers (version_probe world_ffmpeg_only fallback) = true
  /\ io_result (check_downloader_availability world_ffmpeg_only) = inr fallback.
Proof.
  split_and!; [reflexivity|reflexivity|].
  destruct (check_downloader_availability_priority world_ffmpeg_only)
    as (_ & Hfallback & _); [reflexivity|reflexivity|].
  apply Hfallback. split; reflexivity.
Defined.

(** C8: the code where the claim fails. The method probes both tools before
    it chooses (lines 121-135). When the probe of the primary tool succeeds
    and the probe of the fallback raises an exception that line 134 does not
    catch (an [OSError] that is not [FileNotFoundError], [PermissionError] for
    a program that may not be run), the method raises that exception after the
    two probes instead of returning the primary tool. *)
Theorem check_downloader_availability_fallback_raises (W : World) (e : exn) :
  probe_succeeds (version_probe W primary) = true ->
  version_probe W fallback = RunRaised e ->
  probe_fails (RunRaised e) = false ->
  check_downloader_availability W
  = (inl e, [probe_event primary; probe_event fallback]).
Proof.
  intros H1 H2 H3. rewrite check_downloader_availability_eq, H2, H3.
  by destruct (version_probe W primary).
Qed.

(** A world where the primary tool works and the fallback is there but may
    not be run. *)
Definition world_ffmpeg_denied : World :=
  mk_world "/home/user" (fun _ => None)
    (fun _ _ => Response 200 EmptyString (Some response_with_date))
    sample_now
    (fun argv _ =>
       match argv with
       | "ffmpeg" :: _ => RunRaised (OSError "[Errno 13] Permission denied: 'ffmpeg'")
       | _ => Completed 0
       end)
    (fun _ => true) (fun _ _ => None).

Lemma check_downloader_availability_fallback_raises_witness :
  probe_succeeds (version_probe world_ffmpeg_denied primary) = true
  /\ check_downloader_availability world_ffmpeg_denied
     = (inl (OSError "[Errno 13] Permission denied: 'ffmpeg'"),
        [probe_event primary; probe_event fallback]).
Proof.
  split; [reflexivity|].
  apply (check_downloader_availability_fallback_raises world_ffmpeg_denied);
    reflexivity.
Defined.

(** ** [download_video] *)

(** The events before anything is written: the directory, the request, the
    two probes. *)
Definition is_prelude (ev : event) : bool :=
  match ev with
  | EvMkdir _ | EvCwd | EvGet _ _ => true
  | EvRun _ timeout => (timeout =? 10)%nat
  | _ => false
  end.

Definition prelude (t : list event) : Prop := Forall (fun ev => is_prelude ev = true) t.

Lemma setup_output_dir_prelude W d : prelude (io_trace (setup_output_dir W d)).
Proof.
  unfold setup_output_dir, prelude. destruct (dir_truthy d); simpl.
  - destruct (mkdir W (dir_text d)); simpl; repeat constructor.
  - repeat constructor.
Qed.

Lemma fetch_meeting_data_prelude W meeting_id auth_token :
  prelude (io_trace (fetch_meeting_data W meeting_id auth_token)).
Proof.
  unfold fetch_meeting_data, prelude. simpl.
  destruct (http_get W _ _) as [status reason [body|]|msg]; simpl;
    repeat (match goal with |- context [if ?b then _ else _] => destruct b end; simpl);
    repeat constructor.
Qed.

Lemma check_downloader_availability_prelude W :
  prelude (io_trace (check_downloader_availability W)).
Proof.
  rewrite check_downloader_availability_eq. unfold prelude.
  destruct (version_probe W primary) as [rc1|e1];
    [|destruct (probe_fails (RunRaised e1))];
    try (destruct (version_probe W fallback) as [rc2|e2];
         [|destruct (probe_fails (RunRaised e2))]);
    simpl; repeat constructor.
Qed.

Lemma save_metadata_eq W data filename :
  save_metadata W data filename
  = (inr tt, [EvOpenWrite (filename +:+ ".json") data]).
Proof.
  unfold save_metadata. simpl. by destruct (write_json W _ _).
Qed.

(** What the download step leaves behind, with its answer [b]: nothing when
    the command is not text; the run alone when the process does not end with
    0; the run and the look at the output file otherwise. *)
Definition download_step (W : World) (output_file : string) (b : bool)
    (t : list event) : Prop :=
  (b = false /\ t = [])
  \/ (exists argv, t = [EvRun argv 3600] /\ b = false
                   /\ subprocess_run W argv 3600 <> Completed 0)
  \/ (exists argv, t = [EvRun argv 3600; EvExists output_file]
                   /\ subprocess_run W argv 3600 = Completed 0
                   /\ b = path_exists W output_file).

Lemma run_download_command_step W command output_file :
  exists b t, _run_download_command W command output_file = (inr b, t)
              /\ download_step W (PyPath.path output_file) b t.
Proof.
  unfold _run_download_command, run, download_step. cbv zeta.
  destruct (argv_text command) as [argv|]; simpl.
  - destruct (subprocess_run W argv 3600) as [rc|e] eqn:Erun; simpl.
    + destruct (rc =? 0)%Z eqn:Erc; simpl.
      * apply Z.eqb_eq in Erc as ->.
        destruct (path_exists W (PyPath.path output_file)) eqn:Eex; simpl;
          eexists _, _; (split; [reflexivity|]); right; right;
          exists argv; split_and!; done.
      * apply Z.eqb_neq in Erc.
        eexists _, _; (split; [reflexivity|]); right; left.
        exists argv. split_and!; [done|done|congruence].
    + destruct e; simpl; eexists _, _; (split; [reflexivity|]); right; left;
        exists argv; (split_and!; [done|done|congruence]).
  - exists false, []. split; [done|by left].
Qed.

(** The two ways through the [try] block: an exception before anything is
    written, or the metadata, the download step and its answer. *)
Definition body_outcome (W : World) (m : IO (option string)) : Prop :=
  (exists e, io_result m = inl e /\ prelude (io_trace m))
  \/ (exists pre data json_file output_file b t dl,
        prelude pre
        /\ io_result (check_downloader_availability W) = inr dl
        /\ download_step W output_file b t
        /\ io_trace m = pre ++ EvOpenWrite json_file data :: t
        /\ io_result m = inr (if b then Some output_file else None)).

Lemma body_outcome_after W t (m : IO (option string)) :
  prelude t -> body_outcome W m -> body_outcome W (io_result m, t ++ io_trace m).
Proof.
  intros Ht [(e & He & Hp)|(pre & data & jf & out & b & t' & dl & Hp & Hc & Hs & Htr & Hr)].
  - left. exists e. split; [done|]. by apply Forall_app.
  - right. exists (t ++ pre), data, jf, out, b, t', dl.
    split_and!; try done.
    + by apply Forall_app.
    + simpl. by rewrite Htr, app_assoc.
Qed.

Lemma body_outcome_raised W e t :
  prelude t -> body_outcome W (inl e, t).
Proof. intros Ht. left. by exists e. Qed.

Lemma download_video_body_outcome W url auth_token output_dir :
  body_outcome W (download_video_body W url auth_token output_dir).
Proof.
  unfold download_video_body.
  pose proof (setup_output_dir_prelude W output_dir) as H1.
  destruct (setup_output_dir W output_dir) as [[e|output_path] t1] eqn:E1.
  { rewrite (bind_raised _ _ _ _ eq_refl). by apply body_outcome_raised. }
  rewrite (bind_returned _ _ _ _ eq_refl).
  apply body_outcome_after; [done|].
  destruct (extract_meeting_id url) as [e|meeting_id].
  { rewrite (bind_raised _ (lift _) _ _ eq_refl).
    apply body_outcome_raised. constructor. }
  rewrite (bind_returned _ (lift _) _ _ eq_refl).
  apply (body_outcome_after _ []); [constructor|].
  pose proof (fetch_meeting_data_prelude W meeting_id (prepare_auth_token auth_token)) as H3.
  destruct (fetch_meeting_data W meeting_id _) as [[e|data] t3] eqn:E3.
  { rewrite (bind_raised _ _ _ _ eq_refl). by apply body_outcome_raised. }
  rewrite (bind_returned _ _ _ _ eq_refl).
  apply body_outcome_after; [done|].
  destruct (parse_meeting_info (now W) data) as [e|info].
  { rewrite (bind_raised _ (lift _) _ _ eq_refl).
    apply body_outcome_raised. constructor. }
  rewrite (bind_returned _ (lift _) _ _ eq_refl).
  apply (body_outcome_after _ []); [constructor|].
  pose proof (check_downloader_availability_prelude W) as H5.
  destruct (check_downloader_availability W) as [[e|dl] t5] eqn:E5.
  { rewrite (bind_raised _ _ _ _ eq_refl). by apply body_outcome_raised. }
  rewrite (bind_returned _ _ _ _ eq_refl).
  apply body_outcome_after; [done|].
  rewrite save_metadata_eq, (bind_returned _ _ _ _ eq_refl).
  set (output_file := PyPath.join output_path _).
  assert (exists b t,
    (if String.eqb (dl_name dl) "N_m3u8DL-RE"
     then download_with_n_m3u8dl_re W (source_url info) output_file
     else download_with_ffmpeg W (source_url info) output_file) = (inr b, t)
    /\ download_step W output_file b t) as (b & t & -> & Hstep).
  { assert (forall command, exists b t,
              _run_download_command W command output_file = (inr b, t)
              /\ download_step W output_file b t) as Hrun.
    { intros command.
      destruct (run_download_command_step W command output_file) as (b & t & E & H).
      unfold output_file in H at 1. rewrite PyPathFacts.path_join in H. eauto. }
    destruct (String.eqb _ _); apply Hrun. }
  rewrite (bind_returned _ _ _ _ eq_refl).
  right. exists [], (full_data info), (PyPath.join output_path
    (timestamp info +:+ "_" +:+ name info) +:+ ".json"), output_file, b, t, dl.
  split_and!; [constructor|by rewrite E5|done| |].
  - simpl. destruct b; simpl; by rewrite app_nil_r.
  - simpl. by destruct b.
Qed.

(** [download_video] is its [try] block with every exception turned into
    [None]. *)
Lemma download_video_of_body W url auth_token output_dir :
  let body := download_video_body W url auth_token output_dir in
  download_video W url auth_token output_dir =
    match io_result body with
    | inl _ => (inr None, io_trace body)
    | inr _ => body
    end.
Proof.
  unfold download_video.
  destruct (download_video_body W url auth_token output_dir) as [[e|v] t]; simpl; [|done].
  destruct e; simpl; by rewrite app_nil_r.
Qed.

Lemma prelude_no_exists t p : prelude t -> EvExists p ∉ t.
Proof. intros Ht Hin. by apply (proj1 (Forall_forall _ _) Ht) in Hin. Qed.

Lemma prelude_elem t ev : prelude t -> ev ∈ t -> is_prelude ev = true.
Proof. intros Ht Hin. by apply (proj1 (Forall_forall _ _) Ht) in Hin. Qed.

(** In what the download step leaves, the output file is looked at only
    behind a run that ended with 0, and it is the only file looked at. *)
Lemma download_step_exists W output_file b t p :
  download_step W output_file b t -> EvExists p ∈ t ->
  p = output_file /\ b = path_exists W output_file
  /\ exists argv, EvRun argv 3600 ∈ t /\ subprocess_run W argv 3600 = Completed 0.
Proof.
  intros [[_ ->]|[(argv & -> & _)|(argv & -> & Hrun & ->)]] Hin.
  - by apply elem_of_nil in Hin.
  - apply list_elem_of_singleton in Hin. done.
  - apply elem_of_cons in Hin as [|Hin]; [done|].
    apply list_elem_of_singleton in Hin as [= ->].
    split_and!; [done|done|]. exists argv. split; [|done]. by left.
Qed.

Lemma download_step_success W output_file t :
  download_step W output_file true t ->
  EvExists output_file ∈ t /\ path_exists W output_file = true
  /\ exists argv, EvRun argv 3600 ∈ t /\ subprocess_run W argv 3600 = Completed 0.
Proof.
  intros [[? _]|[(argv & _ & ? & _)|(argv & -> & Hrun & Hex)]]; try done.
  split_and!; [by right; left|done|]. exists argv. split; [by left|done].
Qed.

(** C2: [download_video] never raises: it returns a path or [None]. It
    returns the path [p] exactly when the external download (the run with the
    limit of one hour) was started and ended with return code 0, and the
    output file [p] was then looked up and exists; in every other case it
    returns [None]. *)
Theorem download_video_result (W : World) (url auth_token : string) (output_dir : dir_arg) :
  let m := download_video W url auth_token output_dir in
  (exists v, io_result m = inr v)
  /\ (forall p,
        io_result m = inr (Some p) <->
        (exists argv, EvRun argv 3600 ∈ io_trace m
                      /\ subprocess_run W argv 3600 = Completed 0)
        /\ EvExists p ∈ io_trace m
        /\ path_exists W p = true)
  /\ (io_result m = inr None \/ exists p, io_result m = inr (Some p)).
Proof.
  intros m. subst m. rewrite download_video_of_body. cbv zeta.
  destruct (download_video_body_outcome W url auth_token output_dir)
    as [(e & -> & Hp)|(pre & data & jf & out & b & t & dl & Hp & _ & Hs & Htr & Hr)].
  - split_and!; [by eauto| |by left]. intros p. split; [done|].
    intros (_ & Hin & _). by apply prelude_no_exists in Hin.
  - rewrite Hr. cbv iota. rewrite Hr, Htr.
    split_and!; [by eauto| |destruct b; eauto].
    intros p. split.
    + destruct b; [|done]. intros [= <-].
      destruct (download_step_success _ _ _ Hs) as (Hin & Hex & argv & Hrun & Hrc).
      split_and!; [|by apply elem_of_app; right; right|done].
      exists argv. split; [|done]. by apply elem_of_app; right; right.
    + intros (_ & Hin & Hex).
      apply elem_of_app in Hin as [Hin|Hin]; [by apply prelude_no_exists in Hin|].
      apply elem_of_cons in Hin as [|Hin]; [done|].
      destruct (download_step_exists _ _ _ _ _ Hs Hin) as (-> & -> & _).
      by rewrite Hex.
Qed.

Lemma download_video_result_witness :
  io_result (download_video world_ffmpeg_only
               "https://tldv.io/app/meetings/64f8a1b2c3d4e5f6a7b8c9d0"
               "eyJhbGciOi.x.y" NoDir)
  = inr (Some "/home/user/2024-03-15_10-30-00_Weekly sync.mp4").
Proof.
  apply (download_video_result world_ffmpeg_only).
  split_and!.
  - exists ["ffmpeg"; "-i"; "https://media.tldv.io/a/playlist.m3u8"; "-c"; "copy"; "-y";
            "/home/user/2024-03-15_10-30-00_Weekly sync.mp4"].
    split; [|reflexivity].
    apply list_elem_of_In. vm_compute. do 5 right. left. reflexivity.
  - apply list_elem_of_In. vm_compute. do 6 right. left. reflexivity.
  - reflexivity.
Defined.

(** ** No downloader *)

Lemma check_downloader_availability_none W :
  probe_fails (version_probe W primary) = true ->
  probe_fails (version_probe W fallback) = true ->
  io_result (check_downloader_availability W) = inl no_downloader.
Proof.
  intros H1 H2. rewrite check_downloader_availability_eq.
  destruct (version_probe W primary) as [rc1|e1];
    destruct (version_probe W fallback) as [rc2|e2]; simpl in *.
  - apply negb_true_iff in H1, H2. by rewrite H1, H2.
  - apply negb_true_iff in H1. by rewrite H2, H1.
  - apply negb_true_iff in H2. by rewrite H1, H2.
  - by rewrite H1, H2.
Qed.

(** C9: when the probes of both tools fail, [download_video] returns
    [None], and nothing is written: its trace has no write of the metadata file
    and no run of a download (which is what writes the media file), only the
    directory, the request and the two probes. This is so because the tool is
    selected first: in every call, an event that is not one of those comes
    behind a selection that has returned a tool. *)
Theorem download_video_no_downloader (W : World) (url auth_token : string)
    (output_dir : dir_arg) :
  let m := download_video W url auth_token output_dir in
  (probe_fails (version_probe W primary) = true ->
   probe_fails (version_probe W fallback) = true ->
   io_result m = inr None
   /\ (forall path data, EvOpenWrite path data ∉ io_trace m)
   /\ (forall argv, EvRun argv 3600 ∉ io_trace m)
   /\ (forall path, EvExists path ∉ io_trace m))
  /\ (forall ev, ev ∈ io_trace m -> is_prelude ev = false ->
        exists dl, io_result (check_downloader_availability W) = inr dl).
Proof.
  intros m. subst m. rewrite download_video_of_body. cbv zeta.
  destruct (download_video_body_outcome W url auth_token output_dir)
    as [(e & -> & Hp)|(pre & data & jf & out & b & t & dl & Hp & Hc & Hs & Htr & Hr)].
  - split.
    + intros _ _. split_and!; [done|..]; unfold not; intros;
        match goal with
        | Hin : _ ∈ _ |- _ => by apply (prelude_elem _ _ Hp) in Hin
        end.
    + intros ev Hin Hev. apply (prelude_elem _ _ Hp) in Hin. congruence.
  - rewrite Hr. cbv iota. split; [|by eauto].
    intros H1 H2. rewrite (check_downloader_availability_none W H1 H2) in Hc.
    discriminate.
Qed.

(** A world where neither tool is installed. *)
Definition world_without_tools : World :=
  mk_world "/home/user" (fun _ => None)
    (fun _ _ => Response 200 EmptyString (Some response_with_date))
    sample_now
    (fun _ _ => RunRaised (FileNotFoundError "No such file or directory"))
    (fun _ => false) (fun _ _ => None).

Lemma download_video_no_downloader_witness :
  probe_fails (version_probe world_without_tools primary) = true
  /\ probe_fails (version_probe world_without_tools fallback) = true
  /\ io_result (download_video world_without_tools
                  "https://tldv.io/app/meetings/64f8a1b2c3d4e5f6a7b8c9d0"
                  "eyJhbGciOi.x.y" (DirStr "recordings")) = inr None.
Proof.
  split_and!; [reflexivity|reflexivity|].
  apply (download_video_no_downloader world_without_tools); reflexivity.
Defined.

(** ** [download_multiple_videos] *)

(** C10: for the empty list the method returns the empty list at once: no
    event at all, so no directory is made or resolved, no pool is started and
    no outcome is produced or summarised. A list that is not empty is handled
    otherwise: the directory is made or resolved first, and the value returned
    is never the empty list. *)
Theorem download_multiple_videos_empty (BW : BatchWorld) (output_dir : dir_arg)
    (max_workers : Z) :
  download_multiple_videos BW [] output_dir max_workers = (inr (Some []), [])
  /\ (forall video_data rest,
        let m := download_multiple_videos BW (video_data :: rest) output_dir max_workers in
        io_result m <> inr (Some [])
        /\ exists ev t, io_trace m = ev :: t
                        /\ (ev = EvCwd \/ ev = EvMkdir (dir_text output_dir))).
Proof.
  split; [done|]. intros video_data rest m. subst m.
  unfold download_multiple_videos.
  assert (exists ev r, setup_output_dir (main_world BW) output_dir = (r, [ev])
                       /\ (ev = EvCwd \/ ev = EvMkdir (dir_text output_dir)))
    as (ev & r & E & Hev).
  { unfold setup_output_dir. destruct (dir_truthy output_dir); simpl.
    - destruct (mkdir _ _); simpl; eauto.
    - eauto. }
  destruct r as [e|output_path].
  - rewrite (bind_raised _ _ _ _ E). split; [done|]. by eauto.
  - rewrite (bind_returned _ _ _ _ E). split; [|simpl; by eauto].
    destruct (max_workers <=? 0)%Z; [done|].
    rewrite (bind_returned _ (emit _) _ _ eq_refl).
    destruct (run_pool _ _ _ _ _) as [[e|acc] t]; [done|].
    rewrite (bind_returned _ (inr acc, t) _ _ eq_refl). done.
Qed.

(** The value of a batch that is not empty: [None], or an exception of the
    directory or of the pool; never a list. *)
Lemma download_multiple_videos_value BW video_data rest output_dir max_workers :
  let m := download_multiple_videos BW (video_data :: rest) output_dir max_workers in
  io_result m = inr None \/ exists e, io_result m = inl e.
Proof.
  intros m. subst m. unfold download_multiple_videos.
  destruct (setup_output_dir (main_world BW) output_dir) as [[e|output_path] t1] eqn:E.
  - rewrite (bind_raised _ _ _ _ eq_refl). by eauto.
  - rewrite (bind_returned _ _ _ _ eq_refl).
    destruct (max_workers <=? 0)%Z; [by right; eauto|].
    rewrite (bind_returned _ (emit _) _ _ eq_refl).
    destruct (run_pool _ _ _ _ _) as [[e|acc] t]; [by right; eauto|].
    rewrite (bind_returned _ (inr acc, t) _ _ eq_refl). by left.
Qed.

(** A batch of two meetings, where the fallback tool is installed and every
    download succeeds. *)
Definition two_meetings : list (string * string) :=
  [("https://tldv.io/app/meetings/64f8a1b2c3d4e5f6a7b8c9d0", "eyJhbGciOi.x.y");
   ("https://tldv.io/app/meetings/64f8a1b2c3d4e5f6a7b8c9d1", "eyJhbGciOi.x.y")].

Definition batch_world : BatchWorld :=
  mk_batch_world world_ffmpeg_only (fun _ => world_ffmpeg_only) (fun n => seq 0 n).

Definition video_file : string := "/home/user/2024-03-15_10-30-00_Weekly sync.mp4".

(** C1: the code at the failing input. Both downloads succeed and the
    summary holds one outcome for each of the two items, with its url and its
    file, but the method ends without a [return]: the caller gets [None], not
    the list. *)
Lemma download_multiple_videos_returns_none :
  let m := download_multiple_videos batch_world two_meetings NoDir 3 in
  io_result m = inr None
  /\ last (io_trace m) =
       Some (EvSummary
               [mk_outcome true "https://tldv.io/app/meetings/64f8a1b2c3d4e5f6a7b8c9d0"
                  (Some video_file) None;
                mk_outcome true "https://tldv.io/app/meetings/64f8a1b2c3d4e5f6a7b8c9d1"
                  (Some video_file) None]
               []).
Proof. split; vm_compute; reflexivity. Qed.

(** *** One outcome for each item, in the summary *)

(** The outcomes collected so far. *)
Definition collected (acc : list DownloadOutcome * list DownloadOutcome)
  : list DownloadOutcome := fst acc ++ snd acc.

Lemma download_single_url Wi output_path video_data :
  exists o t, download_single Wi output_path video_data = (inr o, t)
              /\ url o = fst video_data.
Proof.
  destruct video_data as [u tok]. unfold download_single.
  destruct (download_video Wi u tok (DirPath output_path)) as [[e|r] t]; simpl.
  - eauto.
  - destruct (path_truthy r); simpl; eauto.
Qed.

Lemma collect_one_urls u r acc :
  (forall o, r = inr o -> url o = u) ->
  url <$> collected (collect_one u r acc) ≡ₚ u :: (url <$> collected acc).
Proof.
  intros Hu. destruct acc as [s f]. unfold collected, collect_one.
  destruct r as [e|o]; [|rewrite <- (Hu o eq_refl); destruct (success o)];
    simpl; rewrite !fmap_app; simpl.
  - rewrite app_assoc. symmetry. apply Permutation_cons_append.
  - rewrite <- app_assoc. simpl. symmetry. apply Permutation_middle.
  - rewrite app_assoc. symmetry. apply Permutation_cons_append.
Qed.

(** The pool never raises, and collects one outcome, with the url of the
    item, for each position of the order that is a position of the list. *)
Lemma run_pool_urls BW output_path items order acc :
  exists acc' t,
    run_pool BW output_path items order acc = (inr acc', t)
    /\ url <$> collected acc'
       ≡ₚ omap (fun i => fst <$> items !! i) order ++ (url <$> collected acc).
Proof.
  revert acc. induction order as [|i order IH]; intros acc; simpl.
  - by eauto.
  - destruct (items !! i) as [video_data|] eqn:Ei; simpl; [|by apply IH].
    destruct (download_single_url (worker_world BW i) output_path video_data)
      as (o & t & E & Hurl).
    rewrite E. simpl.
    destruct (IH (collect_one (fst video_data) (inr o) acc)) as (acc' & t' & -> & Hp).
    eexists _, _. split; [reflexivity|].
    rewrite Hp, collect_one_urls by (by intros ? [= <-]).
    by rewrite Permutation_middle.
Qed.

Lemma omap_agree {A B} (f g : A -> option B) (l : list A) :
  (forall x, x ∈ l -> f x = g x) -> omap f l = omap g l.
Proof.
  induction l as [|x l IH]; intros H; csimpl; [done|].
  rewrite (H x) by by left. rewrite IH; [done|].
  intros y Hy. apply H. by right.
Qed.

Lemma omap_lookup_seq {A} (l : list A) :
  omap (fun i => l !! i) (seq 0 (length l)) = l.
Proof.
  induction l as [|x l IH] using rev_ind; [done|].
  rewrite length_app, Nat.add_1_r, seq_S, omap_app. simpl.
  rewrite list_lookup_middle by done. f_equal.
  rewrite <- IH at 2. apply omap_agree.
  intros i Hi. apply elem_of_seq in Hi. apply lookup_app_l. lia.
Qed.

(** When the batch returns, its last act was the summary, and when the
    futures complete in an order that is a rearrangement of the positions, the
    outcomes of the summary carry the urls of the items, one for each. *)
Lemma download_multiple_videos_summary BW video_data rest output_dir max_workers :
  let items := video_data :: rest in
  let m := download_multiple_videos BW items output_dir max_workers in
  io_result m = inr None ->
  exists pre successful failed,
    io_trace m = pre ++ [EvSummary successful failed]
    /\ (completion_order BW (length items) ≡ₚ seq 0 (length items) ->
        url <$> (successful ++ failed) ≡ₚ fst <$> items).
Proof.
  intros items m. subst m. unfold download_multiple_videos. fold items.
  destruct (setup_output_dir (main_world BW) output_dir) as [[e|output_path] t1] eqn:E.
  { by rewrite (bind_raised _ _ _ _ eq_refl). }
  rewrite (bind_returned _ _ _ _ eq_refl).
  destruct (max_workers <=? 0)%Z; [done|].
  rewrite (bind_returned _ (emit _) _ _ eq_refl).
  destruct (run_pool_urls BW output_path items
              (completion_order BW (length items)) ([], []))
    as (acc & t & Epool & Hp).
  change (length (video_data :: rest)) with (length items).
  rewrite Epool, (bind_returned _ (inr acc, t) _ _ eq_refl).
  intros _.
  exists (t1 ++ EvPool max_workers :: t), (fst acc), (snd acc).
  split.
  - simpl. by rewrite <- !app_assoc.
  - intros Horder. fold (collected acc). rewrite Hp, Horder.
    change (url <$> collected ([], [])) with (@nil string). rewrite app_nil_r.
    rewrite (omap_agree _ (fun i => (fst <$> items) !! i))
      by (intros; by rewrite list_lookup_fmap).
    rewrite <- (length_fmap fst items). by rewrite omap_lookup_seq.
Qed.

(** * More of the module *)

(** ** The pure methods, further *)

(** A name the sanitizer has nothing to do on. *)
Definition clean_name (s : string) : Prop :=
  PyStr.all (fun c => negb (invalid_char c)) s = true
  /\ PyStr.no_run "_" s = true
  /\ starts_clean s = true
  /\ ends_clean s = true
  /\ String.length s <= 100
  /\ s <> EmptyString.

Lemma sub_class_fixed cls rep s :
  PyStr.all (fun c => negb (cls c)) s = true -> PyStr.sub_class cls rep s = s.
Proof.
  induction s as [|c r IH]; simpl; [done|].
  intros [Hc Hr]%andb_true_iff. apply negb_true_iff in Hc.
  by rewrite Hc, IH.
Qed.

Lemma sub_runs_fixed c s : PyStr.no_run c s = true -> PyStr.sub_runs c s = s.
Proof.
  induction s as [|d r IH]; simpl; [done|].
  intros [Hd Hr]%andb_true_iff. apply negb_true_iff in Hd.
  by rewrite Hd, IH.
Qed.

Lemma sanitize_trimmed_fixed s :
  PyStr.all (fun c => negb (invalid_char c)) s = true ->
  PyStr.no_run "_" s = true ->
  starts_clean s = true -> ends_clean s = true ->
  sanitize_trimmed s = s.
Proof.
  intros Hall Hrun Hst Hen. unfold sanitize_trimmed.
  rewrite sub_class_fixed, sub_runs_fixed by done.
  apply PyStrFacts.strip_fixed; intros c Hc.
  - unfold starts_clean in Hst. rewrite Hc in Hst. by apply negb_true_iff in Hst.
  - unfold ends_clean in Hen. rewrite Hc in Hen. by apply negb_true_iff in Hen.
Qed.

Lemma sanitize_filename_fixed s :
  PyStr.all (fun c => negb (invalid_char c)) s = true ->
  PyStr.no_run "_" s = true ->
  starts_clean s = true -> ends_clean s = true ->
  String.length s <= 100 -> s <> EmptyString ->
  sanitize_filename s = s.
Proof.
  intros Hall Hrun Hst Hen Hlen Hne. unfold sanitize_filename.
  rewrite sanitize_trimmed_fixed by done.
  apply Nat.ltb_ge in Hlen. rewrite Hlen. by destruct s.
Qed.

(** X1: a name that already is a clean file name (none of the nine
    characters, no two underscores in a row, no underscore or space at either
    end, between 1 and 100 characters) comes back unchanged. *)
Theorem sanitize_filename_clean_name (s : string) :
  clean_name s -> sanitize_filename s = s.
Proof.
  intros (Hall & Hrun & Hst & Hen & Hlen & Hne).
  by apply sanitize_filename_fixed.
Qed.

Lemma sanitize_filename_clean_name_witness :
  clean_name "2024 Q3 - Sprint review" /\
  sanitize_filename "2024 Q3 - Sprint review" = "2024 Q3 - Sprint review".
Proof.
  assert (clean_name "2024 Q3 - Sprint review") as H.
  { unfold clean_name. split_and!; try reflexivity; [vm_compute; lia|done]. }
  split; [exact H|]. exact (sanitize_filename_clean_name _ H).
Defined.

(** X2: sanitizing twice is sanitizing once, for every name that is not
    cut: when what is left after the trimming has at most 100 characters. *)
Theorem sanitize_filename_idempotent_uncut (name : string) :
  String.length (sanitize_trimmed name) <= 100 ->
  sanitize_filename (sanitize_filename name) = sanitize_filename name.
Proof.
  intros Hlen.
  destruct (sanitize_filename_cases name) as [[_ ->]|[(Hne & _ & E)|[Hcut _]]].
  - reflexivity.
  - rewrite E. apply sanitize_filename_fixed; try done.
    + apply sanitize_trimmed_all.
    + apply sanitize_trimmed_no_run.
    + apply sanitize_trimmed_starts.
    + apply sanitize_trimmed_ends.
  - lia.
Qed.

Lemma sanitize_filename_idempotent_uncut_witness :
  String.length (sanitize_trimmed "__Q3: plan / review?__") <= 100
  /\ sanitize_filename (sanitize_filename "__Q3: plan / review?__")
     = sanitize_filename "__Q3: plan / review?__".
Proof.
  split; [vm_compute; lia|].
  apply sanitize_filename_idempotent_uncut. vm_compute; lia.
Defined.

(** X3: whatever the token, the header value [prepare_auth_token] makes
    carries one of the two prefixes, and the credential behind it is the
    trimmed token, unchanged: the result is the trimmed token itself or
    ["Bearer "] and the trimmed token. *)
Theorem prepare_auth_token_prefixed (t : string) :
  has_bearer_prefix (prepare_auth_token t) = true
  /\ (prepare_auth_token t = PyStr.strip t
      \/ prepare_auth_token t = "Bearer " +:+ PyStr.strip t).
Proof.
  rewrite prepare_auth_token_unfold.
  destruct (has_bearer_prefix (PyStr.strip t)) eqn:E.
  - split; [done|by left].
  - split; [apply prefixed_has_prefix|by right].
Qed.

(** X4: what [extract_meeting_id] returns has at least 10 characters, has
    no slash, and is the end of the URL once that is stripped; and the only
    exception it raises is its own [ValueError], with the stripped URL in the
    message: the [IndexError] the code also catches never occurs. *)
Theorem extract_meeting_id_outcome (url : string) :
  match extract_meeting_id url with
  | inr meeting_id =>
      10 <= String.length meeting_id /\ no_slash meeting_id
      /\ exists pre, url_stripped url = pre +:+ meeting_id
  | inl e =>
      e = ValueError ("Could not extract meeting ID from URL: " +:+ url_stripped url)
  end.
Proof.
  destruct (final_segment_exists (url_stripped url)) as (pre & seg & E & Hpre & Hseg).
  unfold extract_meeting_id.
  rewrite E, (split_final_segment _ _ Hpre Hseg).
  destruct (String.length seg <? 10)%nat eqn:Hlen; [done|].
  apply Nat.ltb_ge in Hlen. split_and!; [done|done|by exists pre].
Qed.

Lemma rstrip_all p t : PyStr.all p t = true -> PyStr.rstrip_by p t = EmptyString.
Proof.
  induction t as [|c r IH]; simpl; [done|].
  intros [Hc Hr]%andb_true_iff. by rewrite (IH Hr), Hc.
Qed.

Lemma rstrip_app_all p s t :
  PyStr.all p t = true -> PyStr.rstrip_by p (s +:+ t) = PyStr.rstrip_by p s.
Proof.
  intros Ht. induction s as [|c r IH]; simpl.
  - by apply rstrip_all.
  - by rewrite IH.
Qed.

Lemma all_replicate p n c : p c = true -> PyStr.all p (PyStr.replicate n c) = true.
Proof. intros Hc. induction n as [|n IH]; simpl; [done|]. by rewrite Hc, IH. Qed.

Lemma head_append s t :
  PyStr.head (s +:+ t) = match PyStr.head s with Some c => Some c | None => PyStr.head t end.
Proof. by destruct s. Qed.

Lemma strip_slashes u n :
  PyStr.strip u = u ->
  PyStr.strip (u +:+ PyStr.replicate (S n) "/") = u +:+ PyStr.replicate (S n) "/".
Proof.
  intros Hu. apply PyStrFacts.strip_fixed; intros c.
  - rewrite head_append. destruct (PyStr.head u) as [d|] eqn:Ed.
    + intros [= <-]. rewrite <- Hu in Ed. by apply PyStrFacts.head_strip in Ed.
    + simpl. by intros [= <-].
  - rewrite last_append by done.
    assert (PyStr.last (PyStr.replicate (S n) "/") = Some "/"%char) as ->.
    { induction n as [|n IH]; [done|]. exact IH. }
    by intros [= <-].
Qed.

(** X5: slashes at the end of the URL do not matter: for a URL without
    white space around it, any number of slashes added at its end gives the
    same meeting id or the same error. *)
Theorem extract_meeting_id_trailing_slashes (u : string) (n : nat) :
  PyStr.strip u = u ->
  extract_meeting_id (u +:+ PyStr.replicate n "/") = extract_meeting_id u.
Proof.
  intros Hu.
  assert (url_stripped (u +:+ PyStr.replicate n "/") = url_stripped u) as E.
  { unfold url_stripped. destruct n as [|n].
    - simpl. replace (u +:+ EmptyString) with u; [done|].
      clear Hu. induction u; simpl; congruence.
    - rewrite strip_slashes, Hu by done. unfold PyStr.rstrip_chars.
      apply rstrip_app_all. by apply all_replicate. }
  unfold extract_meeting_id. by rewrite E.
Qed.

Lemma extract_meeting_id_trailing_slashes_witness :
  PyStr.strip "https://tldv.io/app/meetings/64f8a1b2c3d4e5f6a7b8c9d0"
  = "https://tldv.io/app/meetings/64f8a1b2c3d4e5f6a7b8c9d0"
  /\ extract_meeting_id "https://tldv.io/app/meetings/64f8a1b2c3d4e5f6a7b8c9d0//"
     = extract_meeting_id "https://tldv.io/app/meetings/64f8a1b2c3d4e5f6a7b8c9d0".
Proof.
  split; [reflexivity|].
  apply (extract_meeting_id_trailing_slashes
           "https://tldv.io/app/meetings/64f8a1b2c3d4e5f6a7b8c9d0" 2).
  reflexivity.
Defined.

(** ** [fetch_meeting_data] *)

(** The address of the request for a meeting (line 60). *)
Definition watch_page (meeting_id : string) : string :=
  "https://gw.tldv.io/v1/meetings/" +:+ meeting_id +:+ "/watch-page?noTranscript=true".

(** What the method makes of the answer to its request (lines 68-80). *)
Definition fetch_answer (answer : http_outcome) : result json :=
  match answer with
  | GetRaised msg => inl (ValueError ("Network error: " +:+ msg))
  | Response status error_text body =>
      if (400 <=? status)%nat && (status <? 600)%nat then
        if (status =? 401)%nat then inl (ValueError "Unauthorized: Invalid auth token")
        else if (status =? 404)%nat then inl (ValueError "Meeting not found")
        else inl (ValueError ("API error: " +:+ error_text))
      else
        match body with
        | Some data => inr data
        | None => inl (ValueError ("Network error: " +:+ error_text))
        end
  end.

Lemma fetch_meeting_data_eq W meeting_id auth_token :
  fetch_meeting_data W meeting_id auth_token
  = (fetch_answer (http_get W (watch_page meeting_id) auth_token),
     [EvGet (watch_page meeting_id) auth_token]).
Proof.
  unfold fetch_meeting_data, fetch_answer. fold (watch_page meeting_id).
  unfold emit. cbn [mbind io_bind].
  destruct (http_get W (watch_page meeting_id) auth_token) as [status reason body|msg];
    [|reflexivity].
  destruct ((400 <=? status)%nat && (status <? 600)%nat);
    [destruct (status =? 401)%nat; [|destruct (status =? 404)%nat]|destruct body];
    reflexivity.
Qed.

(** X6: [fetch_meeting_data] makes one request and no more, to the watch
    page of the meeting and with the token as given; whatever goes wrong, what
    it raises is a [ValueError]; a status 401 and a status 404 have their own
    message; and it returns the body exactly when the status is not from 400
    to 599 and the body is JSON. *)
Theorem fetch_meeting_data_outcome (W : World) (meeting_id auth_token : string) :
  let m := fetch_meeting_data W meeting_id auth_token in
  let answer := http_get W (watch_page meeting_id) auth_token in
  io_trace m = [EvGet (watch_page meeting_id) auth_token]
  /\ (forall e, io_result m = inl e -> exists msg, e = ValueError msg)
  /\ (forall reason body, answer = Response 401 reason body ->
        io_result m = inl (ValueError "Unauthorized: Invalid auth token"))
  /\ (forall reason body, answer = Response 404 reason body ->
        io_result m = inl (ValueError "Meeting not found"))
  /\ (forall data,
        io_result m = inr data <->
        exists status reason,
          answer = Response status reason (Some data)
          /\ (status < 400 \/ 600 <= status)).
Proof.
  intros m answer. subst m answer. rewrite fetch_meeting_data_eq.
  cbn [io_result io_trace fst snd].
  split_and!; [done|..].
  - intros e. unfold fetch_answer.
    destruct (http_get W _ _) as [status reason body|msg]; [|intros [= <-]; eauto].
    destruct ((400 <=? status)%nat && (status <? 600)%nat);
      [destruct (status =? 401)%nat; [|destruct (status =? 404)%nat]|destruct body];
      intros [= <-]; eauto.
  - by intros reason body ->.
  - by intros reason body ->.
  - intros data. unfold fetch_answer.
    destruct (http_get W _ _) as [status reason body|msg].
    + destruct (Nat.leb_spec 400 status) as [Hlo|Hlo];
        destruct (Nat.ltb_spec status 600) as [Hhi|Hhi]; cbn [andb].
      * split.
        -- destruct (status =? 401)%nat; [|destruct (status =? 404)%nat]; done.
        -- intros (st & rs & [= -> _ _] & Hst). lia.
      * destruct body as [data'|]; split; try done.
        -- intros [= <-]. exists status, reason. split; [done|lia].
        -- by intros (st & rs & [= _ _ ->] & _).
        -- by intros (st & rs & [=] & _).
      * destruct body as [data'|]; split; try done.
        -- intros [= <-]. exists status, reason. split; [done|lia].
        -- by intros (st & rs & [= _ _ ->] & _).
        -- by intros (st & rs & [=] & _).
      * lia.
    + split; [done|]. by intros (st & rs & [=] & _).
Qed.

(** ** [check_downloader_availability], further *)

(** X7: the tool [check_downloader_availability] returns is one of the two,
    and one whose own probe ended with return code 0: a tool that is not
    working is never selected. The primary tool is always the first one
    probed. *)
Theorem check_downloader_availability_sound (W : World) :
  let m := check_downloader_availability W in
  (forall d, io_result m = inr d ->
     (d = primary \/ d = fallback)
     /\ probe_succeeds (version_probe W d) = true)
  /\ head (io_trace m) = Some (probe_event primary).
Proof.
  intros m. subst m. rewrite check_downloader_availability_eq.
  destruct (version_probe W primary) as [rc1|e1] eqn:E1;
    [|destruct (probe_fails (RunRaised e1))];
    try (destruct (version_probe W fallback) as [rc2|e2] eqn:E2;
         [|destruct (probe_fails (RunRaised e2))]);
    try destruct (rc1 =? 0)%Z eqn:H1; try destruct (rc2 =? 0)%Z eqn:H2;
    simpl; (split; [|done]); intros d [= <-];
    (split; [by eauto|]); rewrite ?E1, ?E2; simpl; done.
Qed.

(** ** The download commands *)

(** The arguments of the two commands (lines 146-155 and 161-167), for a
    source that is text. *)
Definition n_m3u8dl_re_argv (source output_file : string) : list string :=
  ["N_m3u8DL-RE"; source;
   "--save-name"; PyPath.stem output_file;
   "--save-dir"; PyPath.parent output_file;
   "--thread-count"; "8"; "--download-retry-count"; "3";
   "--auto-select"; "--no-log"].

Definition ffmpeg_argv (source output_file : string) : list string :=
  ["ffmpeg"; "-i"; source; "-c"; "copy"; "-y"; output_file].

(** What running a command of text gives: one process with the limit of an
    hour, and a look at the file when it ended with 0. *)
Definition download_outcome (W : World) (argv : list string) (file : string)
  : IO bool :=
  match subprocess_run W argv 3600 with
  | Completed returncode =>
      if (returncode =? 0)%Z
      then (inr (path_exists W file), [EvRun argv 3600; EvExists file])
      else (inr false, [EvRun argv 3600])
  | RunRaised _ => (inr false, [EvRun argv 3600])
  end.

Lemma run_download_command_text W command argv output_file :
  argv_text command = Some argv ->
  _run_download_command W command output_file
  = download_outcome W argv (PyPath.path output_file).
Proof.
  intros E. unfold _run_download_command, run, download_outcome. rewrite E.
  unfold emit. cbn [mbind io_bind]. cbv zeta.
  destruct (subprocess_run W argv 3600) as [rc|e]; simpl.
  - destruct (rc =? 0)%Z; simpl; [|done].
    by destruct (path_exists W (PyPath.path output_file)).
  - by destruct e.
Qed.

Lemma run_download_command_not_text W command output_file :
  argv_text command = None ->
  _run_download_command W command output_file = (inr false, []).
Proof. intros E. unfold _run_download_command, run. by rewrite E. Qed.

Lemma download_with_n_m3u8dl_re_text W source output_file :
  download_with_n_m3u8dl_re W (JStr source) output_file
  = download_outcome W (n_m3u8dl_re_argv source output_file) (PyPath.path output_file).
Proof. by apply run_download_command_text. Qed.

Lemma download_with_ffmpeg_text W source output_file :
  download_with_ffmpeg W (JStr source) output_file
  = download_outcome W (ffmpeg_argv source output_file) (PyPath.path output_file).
Proof. by apply run_download_command_text. Qed.

Definition is_text (v : json) : bool :=
  match v with JStr _ => true | _ => false end.

Lemma download_source_not_text_aux W source output_file :
  is_text source = false ->
  download_with_n_m3u8dl_re W source output_file = (inr false, [])
  /\ download_with_ffmpeg W source output_file = (inr false, []).
Proof.
  intros Hs. split; apply run_download_command_not_text; by destruct source.
Qed.

(** X8: a source that is not text (a number, a list, ...) starts no
    process: both download methods answer [False] at once, and raise
    nothing. *)
Theorem download_source_not_text (W : World) (source : json) (output_file : string) :
  (forall s, source <> JStr s) ->
  download_with_n_m3u8dl_re W source output_file = (inr false, [])
  /\ download_with_ffmpeg W source output_file = (inr false, []).
Proof.
  intros Hs. split; apply run_download_command_not_text;
    destruct source; try done; by destruct (Hs s).
Qed.

Lemma download_source_not_text_witness :
  download_with_ffmpeg world_ffmpeg_only (JNum 42) "/home/user/a.mp4" = (inr false, []).
Proof. apply (download_source_not_text world_ffmpeg_only (JNum 42)). done. Defined.

(** *** Paths *)

Lemma rpartition_none c s : no_char c s -> PyPath.rpartition c s = None.
Proof.
  unfold no_char. induction s as [|d r IH]; simpl; [done|].
  intros [Hd Hr]%andb_true_iff. apply negb_true_iff in Hd.
  by rewrite (IH Hr), Hd.
Qed.

Lemma rpartition_last c a b :
  no_char c b -> PyPath.rpartition c (a +:+ String c b) = Some (a, b).
Proof.
  intros Hb. induction a as [|d a IH]; simpl.
  - by rewrite (rpartition_none _ _ Hb), Ascii.eqb_refl.
  - by rewrite IH.
Qed.

(** A file name: a text without slash that is not empty and not a dot. *)
Lemma file_name_part x :
  no_char "/" x -> x <> EmptyString -> x <> "." -> PyPathFacts.part x.
Proof.
  intros Hs Hne Hdot. split; [|done]. unfold PyPath.is_part.
  destruct x as [|c r]; [done|]. apply negb_true_iff. cbn [PyStr.is_empty orb].
  by apply String.eqb_neq.
Qed.

Lemma append_not_dot s c t : s <> EmptyString -> s +:+ String c t <> ".".
Proof. destruct s as [|d [|e s]]; simpl; try done; intros _ [=]. Qed.

(** For a file name without slash: the parent of [Path(p) / name] is
    [Path(p)], its name is [name], and with the suffix [.mp4] its stem is what
    is before. *)
Lemma path_join_parts p base :
  no_char "/" base -> base <> EmptyString ->
  PyPath.parent (PyPath.join p (base +:+ ".mp4")) = PyPath.path p
  /\ PyPath.name (PyPath.join p (base +:+ ".mp4")) = base +:+ ".mp4"
  /\ PyPath.stem (PyPath.join p (base +:+ ".mp4")) = base.
Proof.
  intros Hbase Hne.
  assert (PyPathFacts.part (base +:+ ".mp4")) as Hpart.
  { apply file_name_part; [by apply no_char_append| |by apply append_not_dot].
    by destruct base. }
  split_and!.
  - by apply PyPathFacts.parent_join.
  - by apply PyPathFacts.name_join.
  - unfold PyPath.stem. rewrite (PyPathFacts.name_join _ _ Hpart).
    rewrite (rpartition_last "." base "mp4") by done.
    by destruct base.
Qed.

(** How many events of a kind a trace has. *)
Definition count_events (p : event -> bool) (t : list event) : nat :=
  length (List.filter p t).

Definition is_run (ev : event) : bool :=
  match ev with EvRun _ _ => true | _ => false end.

Lemma download_outcome_exists W argv file p :
  EvExists p ∈ io_trace (download_outcome W argv file) -> p = file.
Proof.
  unfold download_outcome.
  destruct (subprocess_run W argv 3600) as [rc|e]; [destruct (rc =? 0)%Z|];
    cbn [io_trace snd]; intros Hin;
    repeat (apply elem_of_cons in Hin as [Hin|Hin]; [by simplify_eq|]);
    by apply elem_of_nil in Hin.
Qed.

(** X9: for the output file [Path(dir) / base.mp4], whose [base] has no
    slash and is not empty, the primary tool is started with the source, with
    [base] as the name to save under and [Path(dir)] as the directory to save
    in, so that the file it is asked to write is the output file; the fallback
    tool is started with the source and the output file itself. Each method
    starts one process, with the limit of one hour, and the only file it looks
    for afterwards is the output file. *)
Theorem download_commands (W : World) (source dir base : string) :
  no_char "/" base -> base <> EmptyString ->
  let output_path := PyPath.path dir in
  let output_file := PyPath.join output_path (base +:+ ".mp4") in
  let primary_call := download_with_n_m3u8dl_re W (JStr source) output_file in
  let fallback_call := download_with_ffmpeg W (JStr source) output_file in
  head (io_trace primary_call)
  = Some (EvRun ["N_m3u8DL-RE"; source; "--save-name"; base;
                 "--save-dir"; output_path;
                 "--thread-count"; "8"; "--download-retry-count"; "3";
                 "--auto-select"; "--no-log"] 3600)
  /\ head (io_trace fallback_call)
     = Some (EvRun ["ffmpeg"; "-i"; source; "-c"; "copy"; "-y"; output_file] 3600)
  /\ count_events is_run (io_trace primary_call) = 1
  /\ count_events is_run (io_trace fallback_call) = 1
  /\ (forall p, EvExists p ∈ io_trace primary_call ++ io_trace fallback_call ->
        p = output_file).
Proof.
  intros Hbase Hne output_path output_file primary_call fallback_call.
  subst primary_call fallback_call output_file output_path.
  destruct (path_join_parts (PyPath.path dir) base Hbase Hne) as (Hparent & _ & Hstem).
  rewrite PyPathFacts.path_path in Hparent.
  rewrite download_with_n_m3u8dl_re_text, download_with_ffmpeg_text.
  rewrite PyPathFacts.path_join.
  unfold n_m3u8dl_re_argv, ffmpeg_argv. rewrite Hparent, Hstem.
  split_and!;
    [unfold download_outcome;
     match goal with
     | |- context [subprocess_run W ?argv 3600] =>
         destruct (subprocess_run W argv 3600) as [rc|e]; [destruct (rc =? 0)%Z|]
     end; reflexivity ..
    |].
  intros p [Hin|Hin]%elem_of_app; by apply download_outcome_exists in Hin.
Qed.

Lemma download_commands_witness :
  no_char "/" "2024-03-15_10-30-00_Weekly sync"
  /\ head (io_trace (download_with_n_m3u8dl_re world_ffmpeg_only
                       (JStr "https://media.tldv.io/a/playlist.m3u8")
                       "recordings/2024-03-15_10-30-00_Weekly sync.mp4"))
     = Some (EvRun ["N_m3u8DL-RE"; "https://media.tldv.io/a/playlist.m3u8";
                    "--save-name"; "2024-03-15_10-30-00_Weekly sync";
                    "--save-dir"; "recordings";
                    "--thread-count"; "8"; "--download-retry-count"; "3";
                    "--auto-select"; "--no-log"] 3600).
Proof.
  split; [reflexivity|].
  apply (download_commands world_ffmpeg_only "https://media.tldv.io/a/playlist.m3u8"
           "./recordings//" "2024-03-15_10-30-00_Weekly sync"); [reflexivity|done].
Defined.

(** ** [download_video], step by step *)

(** The first event of a call: the directory is made, or looked up. *)
Definition dir_event (d : dir_arg) : event :=
  if dir_truthy d then EvMkdir (dir_text d) else EvCwd.

Definition output_dir_answer (W : World) (d : dir_arg) : result string :=
  if dir_truthy d then
    match mkdir W (dir_text d) with Some e => inl e | None => inr (dir_text d) end
  else inr (PyPath.path (cwd W)).

(** The output directory is a path. *)
Lemma output_dir_answer_path W d output_path :
  output_dir_answer W d = inr output_path -> PyPath.path output_path = output_path.
Proof.
  unfold output_dir_answer. destruct (dir_truthy d) eqn:Hd.
  - destruct (mkdir W (dir_text d)); [done|]. intros [= <-].
    destruct d; try done; apply PyPathFacts.path_path.
  - intros [= <-]. apply PyPathFacts.path_path.
Qed.

Lemma setup_output_dir_eq W d :
  setup_output_dir W d = (output_dir_answer W d, [dir_event d]).
Proof.
  unfold setup_output_dir, output_dir_answer, dir_event.
  destruct (dir_truthy d); [|done]. simpl. by destruct (mkdir W (dir_text d)).
Qed.

(** The name shared by the media file and the metadata file. *)
Definition base_name (info : MeetingInfo) : string :=
  timestamp info +:+ "_" +:+ name info.

Definition media_file (output_path : string) (info : MeetingInfo) : string :=
  PyPath.join output_path (timestamp info +:+ "_" +:+ name info +:+ ".mp4").

Lemma media_file_base output_path info :
  media_file output_path info = PyPath.join output_path (base_name info +:+ ".mp4").
Proof.
  unfold media_file, base_name. by rewrite !StrptimeFacts.append_assoc.
Qed.

Definition metadata_file (output_path : string) (info : MeetingInfo) : string :=
  PyPath.join output_path (base_name info) +:+ ".json".

(** The download with the tool selected (lines 326-329). *)
Definition tool_download (W : World) (dl : downloader) (info : MeetingInfo)
    (output_path : string) : IO bool :=
  if String.eqb (dl_name dl) "N_m3u8DL-RE"
  then download_with_n_m3u8dl_re W (source_url info) (media_file output_path info)
  else download_with_ffmpeg W (source_url info) (media_file output_path info).

Lemma tool_download_returns W dl info output_path :
  exists b, io_result (tool_download W dl info output_path) = inr b.
Proof.
  unfold tool_download.
  destruct (String.eqb _ _);
    [destruct (run_download_command_step W
       [JStr "N_m3u8DL-RE"; source_url info;
        JStr "--save-name"; JStr (PyPath.stem (media_file output_path info));
        JStr "--save-dir"; JStr (PyPath.parent (media_file output_path info));
        JStr "--thread-count"; JStr "8"; JStr "--download-retry-count"; JStr "3";
        JStr "--auto-select"; JStr "--no-log"] (media_file output_path info))
       as (b & t & E & _)
    |destruct (run_download_command_step W
       [JStr "ffmpeg"; JStr "-i"; source_url info; JStr "-c"; JStr "copy"; JStr "-y";
        JStr (media_file output_path info)] (media_file output_path info))
       as (b & t & E & _)];
    exists b; unfold download_with_n_m3u8dl_re, download_with_ffmpeg; by rewrite E.
Qed.

(** The whole of [download_video], one step after the other: what it
    returns and what it has done, by the answers of the world. *)
Definition download_video_steps (W : World) (url auth_token : string)
    (output_dir : dir_arg) : IO (option string) :=
  let ev_dir := dir_event output_dir in
  match output_dir_answer W output_dir with
  | inl _ => (inr None, [ev_dir])
  | inr output_path =>
      match extract_meeting_id url with
      | inl _ => (inr None, [ev_dir])
      | inr meeting_id =>
          let token := prepare_auth_token auth_token in
          let ev_get := EvGet (watch_page meeting_id) token in
          match fetch_answer (http_get W (watch_page meeting_id) token) with
          | inl _ => (inr None, [ev_dir; ev_get])
          | inr data =>
              match parse_meeting_info (now W) data with
              | inl _ => (inr None, [ev_dir; ev_get])
              | inr info =>
                  let selection := check_downloader_availability W in
                  match io_result selection with
                  | inl _ => (inr None, ev_dir :: ev_get :: io_trace selection)
                  | inr dl =>
                      let step := tool_download W dl info output_path in
                      (match io_result step with
                       | inr true => inr (Some (media_file output_path info))
                       | _ => inr None
                       end,
                       ev_dir :: ev_get :: io_trace selection
                       ++ EvOpenWrite (metadata_file output_path info) (full_data info)
                          :: io_trace step)
                  end
              end
          end
      end
  end.

Lemma download_video_eq W url auth_token output_dir :
  download_video W url auth_token output_dir
  = download_video_steps W url auth_token output_dir.
Proof.
  rewrite download_video_of_body.
  unfold download_video_body, download_video_steps. cbv zeta.
  rewrite setup_output_dir_eq.
  destruct (output_dir_answer W output_dir) as [e|output_path].
  { by rewrite (bind_raised _ _ _ _ eq_refl). }
  rewrite (bind_returned _ _ _ _ eq_refl).
  destruct (extract_meeting_id url) as [e|meeting_id].
  { by rewrite (bind_raised _ (lift _) _ _ eq_refl). }
  rewrite (bind_returned _ (lift _) _ _ eq_refl).
  rewrite fetch_meeting_data_eq.
  destruct (fetch_answer _) as [e|data].
  { by rewrite (bind_raised _ _ _ _ eq_refl). }
  rewrite (bind_returned _ _ _ _ eq_refl).
  destruct (parse_meeting_info (now W) data) as [e|info].
  { by rewrite (bind_raised _ (lift _) _ _ eq_refl). }
  rewrite (bind_returned _ (lift _) _ _ eq_refl).
  destruct (check_downloader_availability W) as [[e|dl] tc].
  { by rewrite (bind_raised _ _ _ _ eq_refl). }
  rewrite (bind_returned _ _ _ _ eq_refl).
  rewrite save_metadata_eq, (bind_returned _ _ _ _ eq_refl).
  cbn [io_result io_trace fst snd].
  fold (base_name info). fold (media_file output_path info).
  fold (metadata_file output_path info). fold (tool_download W dl info output_path).
  destruct (tool_download_returns W dl info output_path) as [b Hb].
  destruct (tool_download W dl info output_path) as [r t]. simpl in Hb. subst r.
  rewrite (bind_returned _ _ _ _ eq_refl).
  cbn [io_result io_trace fst snd]. rewrite app_nil_l.
  destruct b; simpl; by rewrite app_nil_r.
Qed.

Lemma tool_download_step W dl info output_path :
  exists b t, tool_download W dl info output_path = (inr b, t)
              /\ download_step W (media_file output_path info) b t.
Proof.
  assert (forall command, exists b t,
            _run_download_command W command (media_file output_path info) = (inr b, t)
            /\ download_step W (media_file output_path info) b t) as Hrun.
  { intros command.
    destruct (run_download_command_step W command (media_file output_path info))
      as (b & t & E & H).
    unfold media_file in H at 1. rewrite PyPathFacts.path_join in H. eauto. }
  unfold tool_download. destruct (String.eqb _ _); apply Hrun.
Qed.

Lemma selection_trace W :
  io_trace (check_downloader_availability W) = [probe_event primary]
  \/ io_trace (check_downloader_availability W) = [probe_event primary; probe_event fallback].
Proof.
  rewrite check_downloader_availability_eq.
  destruct (version_probe W primary) as [rc1|e1];
    [|destruct (probe_fails (RunRaised e1))];
    try (destruct (version_probe W fallback) as [rc2|e2];
         [|destruct (probe_fails (RunRaised e2))]);
    simpl; auto.
Qed.

(** When a tool is selected, both have been probed. *)
Lemma selection_trace_returned W dl :
  io_result (check_downloader_availability W) = inr dl ->
  io_trace (check_downloader_availability W) = [probe_event primary; probe_event fallback].
Proof.
  rewrite check_downloader_availability_eq.
  destruct (version_probe W primary) as [rc1|e1];
    [|destruct (probe_fails (RunRaised e1))];
    try (destruct (version_probe W fallback) as [rc2|e2];
         [|destruct (probe_fails (RunRaised e2))]);
    simpl; done.
Qed.

(** X10: [download_video] stops at the first step that fails, and returns
    [None]. With a URL that gives no meeting id, the directory step is all
    that happens: no request is sent. When the request fails, or its answer
    cannot be parsed, the directory and the request are all that happens: no
    tool is probed, nothing is written, no download is started. *)
Theorem download_video_stops_early (W : World) (url auth_token : string)
    (output_dir : dir_arg) :
  let m := download_video W url auth_token output_dir in
  let token := prepare_auth_token auth_token in
  (forall e, extract_meeting_id url = inl e -> m = (inr None, [dir_event output_dir]))
  /\ (forall meeting_id,
        extract_meeting_id url = inr meeting_id ->
        (exists e, fetch_answer (http_get W (watch_page meeting_id) token) = inl e)
        \/ (exists data e,
              fetch_answer (http_get W (watch_page meeting_id) token) = inr data
              /\ parse_meeting_info (now W) data = inl e) ->
        io_result m = inr None
        /\ (io_trace m = [dir_event output_dir]
            \/ io_trace m = [dir_event output_dir; EvGet (watch_page meeting_id) token])).
Proof.
  intros m token. subst m token. rewrite download_video_eq.
  unfold download_video_steps. split.
  - intros e ->. by destruct (output_dir_answer W output_dir).
  - intros meeting_id -> H.
    destruct (output_dir_answer W output_dir); [by auto|].
    destruct H as [[e ->]|(data & e & -> & ->)]; by auto.
Qed.

Lemma download_video_stops_early_witness :
  download_video world_ffmpeg_only "https://tldv.io/m/abc" "eyJhbGciOi.x.y" NoDir
  = (inr None, [EvCwd]).
Proof.
  apply (proj1 (download_video_stops_early world_ffmpeg_only "https://tldv.io/m/abc"
                  "eyJhbGciOi.x.y" NoDir)
           (ValueError "Could not extract meeting ID from URL: https://tldv.io/m/abc")).
  reflexivity.
Defined.

Definition is_get (ev : event) : bool :=
  match ev with EvGet _ _ => true | _ => false end.

Definition is_download_run (ev : event) : bool :=
  match ev with EvRun _ timeout => (timeout =? 3600)%nat | _ => false end.

Definition is_write (ev : event) : bool :=
  match ev with EvOpenWrite _ _ => true | _ => false end.

Lemma count_events_app p t1 t2 :
  count_events p (t1 ++ t2) = count_events p t1 + count_events p t2.
Proof. unfold count_events. by rewrite List.filter_app, length_app. Qed.

Lemma count_selection W p :
  p (probe_event primary) = false -> p (probe_event fallback) = false ->
  count_events p (io_trace (check_downloader_availability W)) = 0.
Proof.
  intros H1 H2. unfold count_events.
  destruct (selection_trace W) as [-> | ->]; simpl; by rewrite H1, ?H2.
Qed.

Lemma count_download_step W output_file b t :
  download_step W output_file b t ->
  count_events is_get t = 0 /\ count_events is_write t = 0
  /\ count_events is_download_run t <= 1.
Proof.
  intros [[_ ->]|[(argv & -> & _)|(argv & -> & _)]]; cbv; auto.
Qed.

(** X11: one call of [download_video] sends at most one request, writes at
    most one metadata file and starts at most one download: nothing is tried
    again. The first thing it does is the directory step. And a request, when
    one is sent, goes to the watch page of the meeting id taken from the URL,
    with the token as [prepare_auth_token] makes it. *)
Theorem download_video_no_retry (W : World) (url auth_token : string)
    (output_dir : dir_arg) :
  let t := io_trace (download_video W url auth_token output_dir) in
  count_events is_get t <= 1
  /\ count_events is_write t <= 1
  /\ count_events is_download_run t <= 1
  /\ head t = Some (dir_event output_dir)
  /\ (forall api_url authorization,
        EvGet api_url authorization ∈ t ->
        authorization = prepare_auth_token auth_token
        /\ exists meeting_id,
             extract_meeting_id url = inr meeting_id
             /\ api_url = watch_page meeting_id).
Proof.
  intros t. subst t. rewrite download_video_eq. unfold download_video_steps.
  assert (forall d, is_get (dir_event d) = false /\ is_write (dir_event d) = false
                    /\ is_download_run (dir_event d) = false) as Hdir.
  { intros d. unfold dir_event. by destruct (dir_truthy d). }
  destruct (Hdir output_dir) as (Hd1 & Hd2 & Hd3).
  assert (forall a h, EvGet a h <> dir_event output_dir) as Hne.
  { intros a h. unfold dir_event. by destruct (dir_truthy output_dir). }
  destruct (output_dir_answer W output_dir) as [e|output_path].
  { cbn [io_trace snd]. unfold count_events. simpl. rewrite Hd1, Hd2, Hd3. simpl.
    split_and!; try lia; [done|].
    intros a h Hin%list_elem_of_singleton. by destruct (Hne a h). }
  destruct (extract_meeting_id url) as [e|meeting_id].
  { cbn [io_trace snd]. unfold count_events. simpl. rewrite Hd1, Hd2, Hd3. simpl.
    split_and!; try lia; [done|].
    intros a h Hin%list_elem_of_singleton. by destruct (Hne a h). }
  set (token := prepare_auth_token auth_token).
  assert (forall tl a h,
            (forall a' h', EvGet a' h' ∉ tl) ->
            EvGet a h ∈ dir_event output_dir :: EvGet (watch_page meeting_id) token :: tl ->
            h = token /\ exists id, inr meeting_id = inr (A:=exn) id /\ a = watch_page id)
    as Hget.
  { intros tl a h Htl Hin.
    apply elem_of_cons in Hin as [Hin|Hin]; [by destruct (Hne a h)|].
    apply elem_of_cons in Hin as [[= -> ->]|Hin]; [by eauto|].
    by destruct (Htl a h). }
  destruct (fetch_answer _) as [e|data].
  { cbn [io_trace snd]. unfold count_events. simpl. rewrite Hd1, Hd2, Hd3. simpl.
    split_and!; try lia; [done|].
    intros a h. apply Hget. intros ? ? []%elem_of_nil. }
  destruct (parse_meeting_info (now W) data) as [e|info].
  { cbn [io_trace snd]. unfold count_events. simpl. rewrite Hd1, Hd2, Hd3. simpl.
    split_and!; try lia; [done|].
    intros a h. apply Hget. intros ? ? []%elem_of_nil. }
  assert (forall a h, EvGet a h ∉ io_trace (check_downloader_availability W)) as Hsel.
  { intros a h Hin. pose proof (check_downloader_availability_prelude W) as Hp.
    destruct (selection_trace W) as [E|E]; rewrite E in Hin;
      repeat (apply elem_of_cons in Hin as [Hin|Hin]; [done|]);
      by apply elem_of_nil in Hin. }
  destruct (io_result (check_downloader_availability W)) as [e|dl].
  { cbn [io_trace snd].
    change (dir_event output_dir :: EvGet (watch_page meeting_id) token
            :: io_trace (check_downloader_availability W))
      with ([dir_event output_dir; EvGet (watch_page meeting_id) token]
            ++ io_trace (check_downloader_availability W)).
    rewrite !count_events_app, !count_selection by done.
    unfold count_events. simpl. rewrite Hd1, Hd2, Hd3. simpl.
    split_and!; try lia; [done|].
    intros a h. apply Hget. apply Hsel. }
  destruct (tool_download_step W dl info output_path) as (b & ts & -> & Hstep).
  destruct (count_download_step _ _ _ _ Hstep) as (Hc1 & Hc2 & Hc3).
  cbn [io_trace snd].
  change (dir_event output_dir :: EvGet (watch_page meeting_id) token
          :: io_trace (check_downloader_availability W)
          ++ EvOpenWrite (metadata_file output_path info) (full_data info) :: ts)
    with ([dir_event output_dir; EvGet (watch_page meeting_id) token]
          ++ io_trace (check_downloader_availability W)
          ++ [EvOpenWrite (metadata_file output_path info) (full_data info)] ++ ts).
  rewrite !count_events_app, !count_selection, Hc1, Hc2 by done.
  unfold count_events at 1 2 3 4 5 6. simpl. rewrite Hd1, Hd2, Hd3. simpl.
  split_and!; try lia; [done|].
  intros a h. apply Hget. intros a' h' Hin.
  apply elem_of_app in Hin as [Hin|Hin]; [by destruct (Hsel a' h')|].
  apply elem_of_cons in Hin as [|Hin]; [done|].
  destruct Hstep as [[_ ->]|[(argv & -> & _)|(argv & -> & _)]];
    repeat (apply elem_of_cons in Hin as [Hin|Hin]; [done|]);
    by apply elem_of_nil in Hin.
Qed.

(** The world [W] with another answer to the writing of the metadata. *)
Definition with_write_json (W : World) (answer : string -> json -> option exn) : World :=
  mk_world (cwd W) (mkdir W) (http_get W) (now W) (subprocess_run W) (path_exists W)
    answer.

(** X12: whether the metadata file can be written or not makes no
    difference to [download_video]: with any other answer to that writing, it
    returns the same and does the same, the attempt to write included. *)
Theorem download_video_metadata_failure (W : World)
    (answer : string -> json -> option exn)
    (url auth_token : string) (output_dir : dir_arg) :
  download_video (with_write_json W answer) url auth_token output_dir
  = download_video W url auth_token output_dir.
Proof. rewrite !download_video_eq. reflexivity. Qed.

(** ** Where the files go *)

Definition allowed_char (c : ascii) : bool := negb (invalid_char c).

Lemma all_append p s t :
  PyStr.all p (s +:+ t) = PyStr.all p s && PyStr.all p t.
Proof. induction s as [|c r IH]; simpl; [done|]. by rewrite IH, andb_assoc. Qed.

Lemma all_append_true p s t :
  PyStr.all p s = true -> PyStr.all p t = true -> PyStr.all p (s +:+ t) = true.
Proof. intros Hs Ht. by rewrite all_append, Hs, Ht. Qed.

Lemma digit_char_allowed n : allowed_char (digit_char n) = true.
Proof.
  unfold digit_char. pose proof (Nat.mod_upper_bound n 10) as H.
  destruct (n mod 10) as [|k]; [done|].
  do 9 (destruct k as [|k]; [done|]). lia.
Qed.

Lemma pad2_allowed n : PyStr.all allowed_char (pad2 n) = true.
Proof. unfold pad2. cbn [PyStr.all]. by rewrite !digit_char_allowed. Qed.

(** One separator, then the rest. *)
Lemma all_after_char p c s :
  p c = true -> PyStr.all p s = true -> PyStr.all p (String c EmptyString +:+ s) = true.
Proof. intros Hc Hs. cbn [String.append PyStr.all]. by rewrite Hc, Hs. Qed.

Lemma strftime_allowed d : PyStr.all allowed_char (strftime d) = true.
Proof.
  unfold strftime.
  apply all_append_true.
  { unfold year_text, pad4. repeat case_match.
    - cbn [PyStr.all]. by rewrite digit_char_allowed.
    - apply pad2_allowed.
    - cbn [PyStr.all]. rewrite digit_char_allowed. apply pad2_allowed.
    - apply all_append_true; apply pad2_allowed. }
  apply all_after_char; [reflexivity|].
  apply all_append_true; [apply pad2_allowed|].
  apply all_after_char; [reflexivity|].
  apply all_append_true; [apply pad2_allowed|].
  apply all_after_char; [reflexivity|].
  apply all_append_true; [apply pad2_allowed|].
  apply all_after_char; [reflexivity|].
  apply all_append_true; [apply pad2_allowed|].
  apply all_after_char; [reflexivity|].
  apply pad2_allowed.
Qed.

Lemma sanitize_filename_allowed s : PyStr.all allowed_char (sanitize_filename s) = true.
Proof.
  pose proof (sanitize_trimmed_all s) as H.
  destruct (sanitize_filename_cases s) as [[_ ->]|[(_ & _ & ->)|[_ ->]]];
    [done|done|by apply PyStrFacts.all_take].
Qed.

(** What the fields of a returned [MeetingInfo] are made of. *)
Lemma parse_meeting_info_fields now data info :
  parse_meeting_info now data = inr info ->
  full_data info = data
  /\ (exists s, name info = sanitize_filename s)
  /\ (exists d, timestamp info = strftime d).
Proof.
  unfold parse_meeting_info. destruct data as [| | | | |md]; try done.
  cbn [py_get mbind result_bind].
  destruct (default (JObj ∅) (md !! "meeting")) as [| | | | |meeting]; try done.
  destruct (default (JObj ∅) (md !! "video")) as [| | | | |video]; try done.
  cbn [py_get mbind result_bind].
  destruct (negb (truthy _)); [done|].
  destruct (parse_date _ _) as [|d]; [done|]. cbn [mbind result_bind].
  destruct (default (JStr "TLDV_Meeting") (meeting !! "name")) as [| | |s| |];
    try done.
  cbn [sanitize_filename_of mbind result_bind]. intros [= <-].
  split_and!; [done|by exists s|by exists d].
Qed.

Lemma base_name_allowed now data info :
  parse_meeting_info now data = inr info ->
  PyStr.all allowed_char (base_name info) = true.
Proof.
  intros (_ & [s Hs] & [d Hd])%parse_meeting_info_fields.
  unfold base_name. rewrite Hs, Hd.
  apply all_append_true; [apply strftime_allowed|].
  apply all_after_char; [reflexivity|apply sanitize_filename_allowed].
Qed.

Lemma allowed_no_slash s : PyStr.all allowed_char s = true -> no_char "/" s.
Proof.
  unfold no_char. induction s as [|c r IH]; simpl; [done|].
  intros [Hc Hr]%andb_true_iff. rewrite (IH Hr), andb_true_r.
  destruct (Ascii.eqb c "/") eqn:E; [|done].
  apply Ascii.eqb_eq in E as ->. done.
Qed.

Lemma append_nonempty s c t : s +:+ String c t <> EmptyString.
Proof. by destruct s. Qed.

(** The name shared by the two files, with or without a suffix, is a file
    name. *)
Lemma base_name_part now data info ext :
  parse_meeting_info now data = inr info ->
  PyStr.all allowed_char ext = true ->
  PyPathFacts.part (base_name info +:+ ext).
Proof.
  intros Hparse Hext. pose proof (base_name_allowed _ _ _ Hparse) as Hbase.
  destruct (parse_meeting_info_fields _ _ _ Hparse) as (_ & _ & [d Hd]).
  apply file_name_part.
  - apply allowed_no_slash. by apply all_append_true.
  - unfold base_name. rewrite StrptimeFacts.append_assoc. apply append_nonempty.
  - unfold base_name. rewrite StrptimeFacts.append_assoc.
    apply append_not_dot. rewrite Hd. unfold strftime. apply append_nonempty.
Qed.

(** The two files of a call, in an output directory that is a path. *)
Lemma files_in_directory now data info output_path :
  parse_meeting_info now data = inr info ->
  PyPath.path output_path = output_path ->
  (PyPath.parent (media_file output_path info) = output_path
   /\ PyPath.name (media_file output_path info) = base_name info +:+ ".mp4"
   /\ PyPath.stem (media_file output_path info) = base_name info)
  /\ (PyPath.parent (metadata_file output_path info) = output_path
      /\ PyPath.name (metadata_file output_path info) = base_name info +:+ ".json").
Proof.
  intros Hparse Hpath. split.
  - rewrite media_file_base.
    pose proof (base_name_part _ _ _ EmptyString Hparse eq_refl) as [_ Hbase].
    assert (base_name info <> EmptyString) as Hne.
    { unfold base_name. by destruct (timestamp info). }
    assert (base_name info +:+ EmptyString = base_name info) as E.
    { clear. induction (base_name info) as [|c r IH]; simpl; [done|]. by rewrite IH. }
    rewrite E in Hbase.
    destruct (path_join_parts output_path (base_name info) Hbase Hne) as (-> & -> & ->).
    by rewrite Hpath.
  - pose proof (base_name_part _ _ _ EmptyString Hparse eq_refl) as Hbase.
    pose proof (base_name_part _ _ _ ".json" Hparse eq_refl) as Hjson.
    assert (base_name info +:+ EmptyString = base_name info) as E.
    { clear. induction (base_name info) as [|c r IH]; simpl; [done|]. by rewrite IH. }
    rewrite E in Hbase. unfold metadata_file.
    rewrite (PyPathFacts.join_file_append _ _ _ Hbase Hjson).
    rewrite (PyPathFacts.parent_join _ _ Hjson), (PyPathFacts.name_join _ _ Hjson).
    by rewrite Hpath.
Qed.

(** The arguments of the download, by the tool. *)
Definition tool_argv (dl : downloader) (source output_file : string) : list string :=
  if String.eqb (dl_name dl) "N_m3u8DL-RE"
  then n_m3u8dl_re_argv source output_file
  else ffmpeg_argv source output_file.

(** X13: when [download_video] returns a path, it has done these seven
    things and nothing else, in this order: the directory step, the request,
    the probe of the primary tool, the probe of the fallback tool, the writing
    of the whole answer of that request as metadata (into the file
    [<timestamp>_<name>.json] of the output directory), the run of the download
    for the tool selected, and the look at the media file; the path returned
    is that media file, [<timestamp>_<name>.mp4] in the output directory (its
    parent is the output directory and its stem is [<timestamp>_<name>], which
    are the directory and the name the primary tool is given), and the source
    of the meeting is text. *)
Theorem download_video_success (W : World) (url auth_token : string)
    (output_dir : dir_arg) (p : string) :
  io_result (download_video W url auth_token output_dir) = inr (Some p) ->
  exists output_path meeting_id data info dl source,
    output_dir_answer W output_dir = inr output_path
    /\ extract_meeting_id url = inr meeting_id
    /\ fetch_answer (http_get W (watch_page meeting_id) (prepare_auth_token auth_token))
       = inr data
    /\ parse_meeting_info (now W) data = inr info
    /\ io_result (check_downloader_availability W) = inr dl
    /\ source_url info = JStr source
    /\ p = media_file output_path info
    /\ PyPath.parent p = output_path
    /\ PyPath.stem p = base_name info
    /\ io_trace (download_video W url auth_token output_dir)
       = [dir_event output_dir;
          EvGet (watch_page meeting_id) (prepare_auth_token auth_token);
          probe_event primary; probe_event fallback;
          EvOpenWrite (metadata_file output_path info) data;
          EvRun (tool_argv dl source p) 3600;
          EvExists p].
Proof.
  rewrite download_video_eq. unfold download_video_steps.
  destruct (output_dir_answer W output_dir) as [e|output_path] eqn:Eout; [done|].
  destruct (extract_meeting_id url) as [e|meeting_id]; [done|].
  destruct (fetch_answer _) as [e|data] eqn:Efetch; [done|].
  destruct (parse_meeting_info (now W) data) as [e|info] eqn:Eparse; [done|].
  destruct (io_result (check_downloader_availability W)) as [e|dl] eqn:Esel; [done|].
  rewrite (selection_trace_returned W dl Esel).
  cbn [io_result io_trace fst snd].
  assert (full_data info = data) as Hdata.
  { pose proof (parse_meeting_info_inv (now W) data) as Hinv. rewrite Eparse in Hinv.
    destruct Hinv as (md & vd & -> & _).
    unfold parse_meeting_info in Eparse. cbn [py_get mbind result_bind] in Eparse.
    destruct (default (JObj ∅) (md !! "meeting")); try done.
    destruct (default (JObj ∅) (md !! "video")); try done.
    cbn [py_get mbind result_bind] in Eparse.
    destruct (negb (truthy _)); [done|].
    destruct (parse_date _ _); [done|]. cbn [mbind result_bind] in Eparse.
    destruct (sanitize_filename_of _); [done|]. cbn [mbind result_bind] in Eparse.
    by injection Eparse as <-. }
  destruct (source_url info) as [| | |source| |] eqn:Esrc;
    try (unfold tool_download; rewrite Esrc;
         destruct (String.eqb (dl_name dl) "N_m3u8DL-RE");
         match goal with
         | |- context [download_with_n_m3u8dl_re W ?s ?o] =>
             rewrite (proj1 (download_source_not_text_aux W s o eq_refl))
         | |- context [download_with_ffmpeg W ?s ?o] =>
             rewrite (proj2 (download_source_not_text_aux W s o eq_refl))
         end; done).
  unfold tool_download. rewrite Esrc.
  intros H.
  exists output_path, meeting_id, data, info, dl, source.
  assert (
    (if String.eqb (dl_name dl) "N_m3u8DL-RE"
     then download_with_n_m3u8dl_re W (JStr source) (media_file output_path info)
     else download_with_ffmpeg W (JStr source) (media_file output_path info))
    = download_outcome W (tool_argv dl source (media_file output_path info))
        (media_file output_path info)) as E.
  { unfold tool_argv. destruct (String.eqb _ _).
    - rewrite download_with_n_m3u8dl_re_text. unfold media_file at 2.
      by rewrite PyPathFacts.path_join.
    - rewrite download_with_ffmpeg_text. unfold media_file at 2.
      by rewrite PyPathFacts.path_join. }
  rewrite E in H |- *. clear E. unfold download_outcome in *.
  destruct (subprocess_run W _ 3600) as [rc|e]; [|done].
  destruct (rc =? 0)%Z; [|done]. cbn [io_result io_trace fst snd] in *.
  destruct (path_exists W (media_file output_path info)); [|done].
  injection H as <-. rewrite Hdata.
  destruct (files_in_directory _ _ _ _ Eparse (output_dir_answer_path _ _ _ Eout))
    as [(Hparent & _ & Hstem) _].
  split_and!; done.
Qed.

Lemma download_video_success_witness :
  exists output_path meeting_id data info dl source,
    output_dir_answer world_ffmpeg_only NoDir = inr output_path
    /\ extract_meeting_id "https://tldv.io/app/meetings/64f8a1b2c3d4e5f6a7b8c9d0"
       = inr meeting_id
    /\ fetch_answer (http_get world_ffmpeg_only (watch_page meeting_id)
                       (prepare_auth_token "eyJhbGciOi.x.y"))
       = inr data
    /\ parse_meeting_info (now world_ffmpeg_only) data = inr info
    /\ io_result (check_downloader_availability world_ffmpeg_only) = inr dl
    /\ source_url info = JStr source
    /\ video_file = media_file output_path info
    /\ PyPath.parent video_file = output_path
    /\ PyPath.stem video_file = base_name info
    /\ io_trace (download_video world_ffmpeg_only
                   "https://tldv.io/app/meetings/64f8a1b2c3d4e5f6a7b8c9d0"
                   "eyJhbGciOi.x.y" NoDir)
       = [dir_event NoDir;
          EvGet (watch_page meeting_id) (prepare_auth_token "eyJhbGciOi.x.y");
          probe_event primary; probe_event fallback;
          EvOpenWrite (metadata_file output_path info) data;
          EvRun (tool_argv dl source video_file) 3600;
          EvExists video_file].
Proof. apply download_video_success. reflexivity. Defined.


(** X14: whatever the meeting is called, every file a call of
    [download_video] writes or looks for (the metadata file, the media file)
    lies directly in the output directory, and its name has none of the nine
    characters the sanitizer removes: a name made of dots and slashes cannot
    lead out of the directory. *)
Theorem download_video_files_in_directory (W : World) (url auth_token : string)
    (output_dir : dir_arg) (path : string) :
  let t := io_trace (download_video W url auth_token output_dir) in
  (exists data, EvOpenWrite path data ∈ t) \/ EvExists path ∈ t ->
  exists output_path,
    output_dir_answer W output_dir = inr output_path
    /\ PyPath.parent path = output_path
    /\ PyStr.all allowed_char (PyPath.name path) = true.
Proof.
  intros t. subst t. rewrite download_video_eq. unfold download_video_steps.
  assert (forall l : list event,
    (forall ev, ev ∈ l -> is_prelude ev = true) ->
    (exists data, EvOpenWrite path data ∈ l) \/ EvExists path ∈ l -> False) as Hquiet.
  { intros l Hl [[data Hin]|Hin]; by apply Hl in Hin. }
  assert (is_prelude (dir_event output_dir) = true) as Hdir.
  { unfold dir_event. by destruct (dir_truthy output_dir). }
  destruct (output_dir_answer W output_dir) as [e|output_path] eqn:Eout.
  { intros H. exfalso. refine (Hquiet _ _ H).
    intros ev ->%list_elem_of_singleton. done. }
  destruct (extract_meeting_id url) as [e|meeting_id].
  { intros H. exfalso. refine (Hquiet _ _ H).
    intros ev ->%list_elem_of_singleton. done. }
  destruct (fetch_answer _) as [e|data].
  { intros H. exfalso. refine (Hquiet _ _ H).
    intros ev [->| ->%list_elem_of_singleton]%elem_of_cons; done. }
  destruct (parse_meeting_info (now W) data) as [e|info] eqn:Eparse.
  { intros H. exfalso. refine (Hquiet _ _ H).
    intros ev [->| ->%list_elem_of_singleton]%elem_of_cons; done. }
  pose proof (check_downloader_availability_prelude W) as Hsel.
  assert (forall ev, ev ∈ dir_event output_dir
            :: EvGet (watch_page meeting_id) (prepare_auth_token auth_token)
            :: io_trace (check_downloader_availability W) -> is_prelude ev = true)
    as Hpre.
  { intros ev [->|[->|Hin]%elem_of_cons]%elem_of_cons; [done|done|].
    by apply (proj1 (Forall_forall _ _) Hsel). }
  destruct (io_result (check_downloader_availability W)) as [e|dl].
  { intros H. exfalso. exact (Hquiet _ Hpre H). }
  destruct (tool_download_step W dl info output_path) as (b & ts & -> & Hstep).
  cbn [io_trace snd]. intros H. exists output_path. split; [done|].
  pose proof (base_name_allowed _ _ _ Eparse) as Hbase.
  assert (path = metadata_file output_path info \/ path = media_file output_path info)
    as [-> | ->].
  { change (dir_event output_dir
            :: EvGet (watch_page meeting_id) (prepare_auth_token auth_token)
            :: io_trace (check_downloader_availability W)
            ++ EvOpenWrite (metadata_file output_path info) (full_data info) :: ts)
      with ((dir_event output_dir
             :: EvGet (watch_page meeting_id) (prepare_auth_token auth_token)
             :: io_trace (check_downloader_availability W))
            ++ EvOpenWrite (metadata_file output_path info) (full_data info) :: ts) in H.
    destruct H as [[data' Hin]|Hin];
      (apply elem_of_app in Hin as [Hin|Hin]; [by apply Hpre in Hin|]);
      (apply elem_of_cons in Hin as [Hin|Hin]; [simplify_eq; auto|]);
      destruct Hstep as [[_ ->]|[(argv & -> & _)|(argv & -> & _)]];
      repeat (apply elem_of_cons in Hin as [Hin|Hin]; [simplify_eq; auto|]);
      by apply elem_of_nil in Hin. }
  - destruct (files_in_directory _ _ _ _ Eparse (output_dir_answer_path _ _ _ Eout))
      as [_ [-> ->]].
    split; [done|]. by apply all_append_true.
  - destruct (files_in_directory _ _ _ _ Eparse (output_dir_answer_path _ _ _ Eout))
      as [(-> & -> & _) _].
    split; [done|]. by apply all_append_true.
Qed.

Definition response_with_path_name : json :=
  JObj {[ "meeting" := JObj {[ "name" := JStr "../../etc/cron.d/job";
                               "createdAt" := JStr "2024-03-15T10:30:00.000Z" ]};
          "video" := JObj {[ "source" := JStr "https://media.tldv.io/a/playlist.m3u8" ]} ]}.

Definition world_with_path_name : World :=
  mk_world "/home/user" (fun _ => None)
    (fun _ _ => Response 200 EmptyString (Some response_with_path_name))
    sample_now (fun _ _ => Completed 0) (fun _ => true) (fun _ _ => None).

Lemma download_video_files_in_directory_witness :
  exists output_path,
    output_dir_answer world_with_path_name (DirStr "recordings") = inr output_path
    /\ PyPath.parent "recordings/2024-03-15_10-30-00_.._.._etc_cron.d_job.mp4" = output_path
    /\ PyStr.all allowed_char
         (PyPath.name "recordings/2024-03-15_10-30-00_.._.._etc_cron.d_job.mp4") = true.
Proof.
  apply (download_video_files_in_directory world_with_path_name
           "https://tldv.io/app/meetings/64f8a1b2c3d4e5f6a7b8c9d0" "eyJhbGciOi.x.y"
           (DirStr "recordings")).
  right. apply list_elem_of_In. vm_compute. do 6 right. left. reflexivity.
Defined.

(** ** The batch, further *)

Lemma download_video_returns W url auth_token output_dir :
  exists v, io_result (download_video W url auth_token output_dir) = inr v.
Proof.
  rewrite download_video_of_body. cbv zeta.
  destruct (io_result (download_video_body W url auth_token output_dir)) as [e|v] eqn:E;
    [by eexists|]. rewrite E. by eexists.
Qed.

(** X15: the outcome [download_single] gives for an item carries the url of
    the item, and is one of two: a success with the file [download_video]
    returned, or a failure whose error is always the same text,
    ["Download failed"]: what went wrong in the download (the URL, the
    request, the tool) does not reach the outcome. The worker does what
    [download_video] does and nothing more, and raises nothing. *)
Theorem download_single_outcome (Wi : World) (output_path url auth_token : string) :
  let m := download_single Wi output_path (url, auth_token) in
  let call := download_video Wi url auth_token (DirPath output_path) in
  io_trace m = io_trace call
  /\ ((exists p, io_result call = inr (Some p)
                 /\ io_result m = inr (mk_outcome true url (Some p) None))
      \/ io_result m = inr (mk_outcome false url None (Some "Download failed"))).
Proof.
  intros m call. subst m call. unfold download_single.
  destruct (download_video_returns Wi url auth_token (DirPath output_path)) as [v Hv].
  destruct (download_video Wi url auth_token (DirPath output_path)) as [r t].
  simpl in Hv. subst r. cbn [try_except mbind io_bind].
  destruct v as [p|]; cbn [path_truthy].
  - destruct (negb (PyStr.is_empty p)); cbn; rewrite app_nil_r; eauto.
  - cbn. rewrite app_nil_r. eauto.
Qed.

(** What the two lists of the summary hold. *)
Definition succeeded (o : DownloadOutcome) : Prop :=
  success o = true /\ (exists p, file o = Some p) /\ error o = None.

Definition failed_generic (o : DownloadOutcome) : Prop :=
  success o = false /\ file o = None /\ error o = Some "Download failed".

Lemma download_single_kind Wi output_path video_data :
  exists o t, download_single Wi output_path video_data = (inr o, t)
              /\ (succeeded o \/ failed_generic o).
Proof.
  destruct video_data as [u tok]. unfold download_single.
  destruct (download_video_returns Wi u tok (DirPath output_path)) as [v Hv].
  destruct (download_video Wi u tok (DirPath output_path)) as [r t].
  simpl in Hv. subst r. cbn [try_except mbind io_bind].
  destruct v as [p|]; cbn [path_truthy]; [destruct (negb (PyStr.is_empty p))|];
    cbn; eexists _, _; (split; [reflexivity|]).
  - left. unfold succeeded. simpl. eauto.
  - right. by unfold failed_generic.
  - right. by unfold failed_generic.
Qed.

Lemma run_pool_kinds BW output_path items order acc :
  Forall succeeded (fst acc) -> Forall failed_generic (snd acc) ->
  exists acc' t,
    run_pool BW output_path items order acc = (inr acc', t)
    /\ Forall succeeded (fst acc') /\ Forall failed_generic (snd acc').
Proof.
  revert acc. induction order as [|i order IH]; intros [s f] Hs Hf; simpl in *.
  - by eauto.
  - destruct (items !! i) as [video_data|]; simpl; [|by apply IH].
    destruct (download_single_kind (worker_world BW i) output_path video_data)
      as (o & t & E & Hkind).
    rewrite E. simpl.
    destruct (success o) eqn:Eo.
    + destruct Hkind as [Hk|Hk]; [|destruct Hk as [Hk _]; congruence].
      destruct (IH (s ++ [o], f)) as (acc' & t' & -> & H1 & H2); simpl;
        [by apply Forall_app; split; [|constructor]|done|].
      by eauto.
    + destruct Hkind as [Hk|Hk]; [destruct Hk as [Hk _]; congruence|].
      destruct (IH (s, f ++ [o])) as (acc' & t' & -> & H1 & H2); simpl;
        [done|by apply Forall_app; split; [|constructor]|].
      by eauto.
Qed.

(** X16: when a batch returns, the last thing it did was the summary, and
    the summary sorts the outcomes: every entry of the first list is a success
    with its file, every entry of the second list is a failure with the error
    ["Download failed"]. When the futures complete in an order that is a
    rearrangement of the positions, the two lists together have one entry for
    each item: their urls are a rearrangement of the urls of the items. *)
Theorem download_multiple_videos_summary_lists (BW : BatchWorld)
    (video_data : string * string) (rest : list (string * string))
    (output_dir : dir_arg) (max_workers : Z) :
  let items := video_data :: rest in
  let m := download_multiple_videos BW items output_dir max_workers in
  io_result m = inr None ->
  exists pre successful failed,
    io_trace m = pre ++ [EvSummary successful failed]
    /\ Forall succeeded successful
    /\ Forall failed_generic failed
    /\ (completion_order BW (length items) ≡ₚ seq 0 (length items) ->
        url <$> (successful ++ failed) ≡ₚ fst <$> items
        /\ length successful + length failed = length items).
Proof.
  intros items m. subst m. unfold download_multiple_videos. fold items.
  destruct (setup_output_dir (main_world BW) output_dir) as [[e|output_path] t1] eqn:E.
  { by rewrite (bind_raised _ _ _ _ eq_refl). }
  rewrite (bind_returned _ _ _ _ eq_refl).
  destruct (max_workers <=? 0)%Z; [done|].
  rewrite (bind_returned _ (emit _) _ _ eq_refl).
  change (length (video_data :: rest)) with (length items).
  destruct (run_pool_urls BW output_path items
              (completion_order BW (length items)) ([], []))
    as (acc & t & Epool & Hp).
  destruct (run_pool_kinds BW output_path items
              (completion_order BW (length items)) ([], []))
    as (acc2 & t2 & Epool2 & Hs & Hf); [constructor|constructor|].
  rewrite Epool in Epool2. injection Epool2 as <- <-.
  rewrite Epool, (bind_returned _ (inr acc, t) _ _ eq_refl).
  intros _.
  exists (t1 ++ EvPool max_workers :: t), (fst acc), (snd acc).
  split_and!; [|done|done|].
  - simpl. by rewrite <- !app_assoc.
  - intros Horder.
    assert (url <$> (acc.1 ++ acc.2) ≡ₚ fst <$> items) as Hurls.
    { fold (collected acc). rewrite Hp, Horder.
      change (url <$> collected ([], [])) with (@nil string). rewrite app_nil_r.
      rewrite (omap_agree _ (fun i => (fst <$> items) !! i))
        by (intros; by rewrite list_lookup_fmap).
      rewrite <- (length_fmap fst items). by rewrite omap_lookup_seq. }
    split; [done|].
    apply Permutation_length in Hurls.
    by rewrite !length_fmap, length_app in Hurls.
Qed.

Lemma download_multiple_videos_summary_lists_witness :
  exists pre successful failed,
    io_trace (download_multiple_videos batch_world two_meetings NoDir 3)
    = pre ++ [EvSummary successful failed]
    /\ Forall succeeded successful
    /\ Forall failed_generic failed
    /\ (completion_order batch_world (length two_meetings) ≡ₚ seq 0 (length two_meetings) ->
        url <$> (successful ++ failed) ≡ₚ fst <$> two_meetings
        /\ length successful + length failed = length two_meetings).
Proof.
  apply (download_multiple_videos_summary_lists batch_world
           ("https://tldv.io/app/meetings/64f8a1b2c3d4e5f6a7b8c9d0", "eyJhbGciOi.x.y")
           [("https://tldv.io/app/meetings/64f8a1b2c3d4e5f6a7b8c9d1", "eyJhbGciOi.x.y")]
           NoDir 3).
  vm_compute. reflexivity.
Defined.

(** X17: a batch raises only for its directory or for its pool. With a
    number of workers of 0 or less, and a directory that can be made, it raises
    the [ValueError] of the pool right after the directory step: no download is
    started. And whatever it raises is the error of the directory, or comes
    with such a number of workers: the downloads never make a batch raise. *)
Theorem download_multiple_videos_raises (BW : BatchWorld)
    (video_data : string * string) (rest : list (string * string))
    (output_dir : dir_arg) (max_workers : Z) :
  let m := download_multiple_videos BW (video_data :: rest) output_dir max_workers in
  (forall output_path,
     (max_workers <= 0)%Z ->
     output_dir_answer (main_world BW) output_dir = inr output_path ->
     m = (inl (ValueError "max_workers must be greater than 0"), [dir_event output_dir]))
  /\ (forall e, io_result m = inl e ->
        output_dir_answer (main_world BW) output_dir = inl e
        \/ ((max_workers <= 0)%Z
            /\ e = ValueError "max_workers must be greater than 0")).
Proof.
  intros m. subst m. unfold download_multiple_videos.
  rewrite setup_output_dir_eq.
  destruct (output_dir_answer (main_world BW) output_dir) as [e|output_path].
  { rewrite (bind_raised _ _ _ _ eq_refl). split; [done|].
    intros e' [= <-]. by left. }
  rewrite (bind_returned _ _ _ _ eq_refl).
  destruct (Z.leb_spec max_workers 0) as [Hw|Hw].
  - split; [by intros ? _ _|]. intros e [= <-]. by right.
  - split; [intros; lia|].
    rewrite (bind_returned _ (emit _) _ _ eq_refl).
    destruct (run_pool_urls BW output_path (video_data :: rest)
                (completion_order BW (length (video_data :: rest))) ([], []))
      as (acc & t & -> & _).
    rewrite (bind_returned _ (inr acc, t) _ _ eq_refl). done.
Qed.

Lemma download_multiple_videos_raises_witness :
  download_multiple_videos batch_world two_meetings NoDir 0
  = (inl (ValueError "max_workers must be greater than 0"), [EvCwd]).
Proof.
  apply (proj1 (download_multiple_videos_raises batch_world
                  ("https://tldv.io/app/meetings/64f8a1b2c3d4e5f6a7b8c9d0", "eyJhbGciOi.x.y")
                  [("https://tldv.io/app/meetings/64f8a1b2c3d4e5f6a7b8c9d1", "eyJhbGciOi.x.y")]
                  NoDir 0) "/home/user"); [lia|reflexivity].
Defined.

(** ** [parse_urls_from_file] *)

(** The line feed and the carriage return. *)
Definition newline : ascii := "010"%char.
Definition carriage_return : ascii := "013"%char.

(** What a file opened with [open(file_path, 'r')] hands out of its text:
    a carriage return with the line feed behind it, and a carriage return
    alone, are read as one line feed. *)
Fixpoint universal_newlines (s : string) : string :=
  match s with
  | EmptyString => EmptyString
  | String c r =>
      if Ascii.eqb c carriage_return then
        if PyStr.starts_with_char newline r then universal_newlines r
        else String newline (universal_newlines r)
      else String c (universal_newlines r)
  end.

(** The lines of the file with the text [text]. The piece after the last
    line end is no line for Python when it is empty; here it is an empty line,
    which is skipped. *)
Definition text_lines (text : string) : list string :=
  PyStr.split newline (universal_newlines text).

(** Does the loop keep the stripped line (line 378)? *)
Definition is_url_line (line : string) : bool :=
  negb (PyStr.is_empty line) && negb (PyStr.startswith "#" line).

(** Lines 371-383; [read] is what opening and reading the file gives: its
    text, or the exception of [open] or of the decoding, after which the
    function returns the empty list. *)
Definition parse_urls_from_file (read : string -> result string)
    (file_path : string) : list string :=
  match read file_path with
  | inl _ => []
  | inr text => List.filter is_url_line (PyStr.strip <$> text_lines text)
  end.

(** X18: every entry [parse_urls_from_file] returns is a line of the file
    without the white space around it: it is not empty, has no white space at
    either end, does not start with [#] and has no line feed in it. A file
    that cannot be read gives the empty list. *)
Theorem parse_urls_from_file_entries (read : string -> result string)
    (file_path : string) :
  Forall (fun u => u <> EmptyString /\ PyStr.strip u = u
                   /\ PyStr.startswith "#" u = false /\ no_char newline u)
    (parse_urls_from_file read file_path)
  /\ (forall e, read file_path = inl e -> parse_urls_from_file read file_path = []).
Proof.
  unfold parse_urls_from_file. split; [|by intros e ->].
  destruct (read file_path) as [e|text]; [constructor|].
  apply Forall_forall. intros u Hu.
  apply list_elem_of_In, List.filter_In in Hu as [Hin Hkeep].
  apply list_elem_of_In, list_elem_of_fmap in Hin as (line & -> & Hline).
  unfold is_url_line in Hkeep. apply andb_true_iff in Hkeep as [Hne Hhash].
  apply negb_true_iff in Hne, Hhash.
  split_and!.
  - intros E. by rewrite E in Hne.
  - apply strip_strip.
  - done.
  - pose proof (split_pieces newline (universal_newlines text)) as Hp.
    apply (proj1 (Forall_forall _ _) Hp) in Hline.
    unfold no_char, PyStr.strip, PyStr.strip_by in *.
    by apply PyStrFacts.all_rstrip, PyStrFacts.all_lstrip.
Qed.

(** A text with one entry on each line. *)
Fixpoint unlines (entries : list string) : string :=
  match entries with
  | [] => EmptyString
  | u :: rest => u +:+ String newline (unlines rest)
  end.

(** A text without carriage return is read as it is. *)
Lemma universal_newlines_fixed s :
  no_char carriage_return s -> universal_newlines s = s.
Proof.
  unfold no_char. induction s as [|c r IH]; simpl; [done|].
  intros [Hc Hr]%andb_true_iff. apply negb_true_iff in Hc.
  by rewrite Hc, (IH Hr).
Qed.

(** An entry as the function returns them, without carriage return. *)
Definition url_entry (u : string) : Prop :=
  u <> EmptyString /\ PyStr.strip u = u
  /\ PyStr.startswith "#" u = false
  /\ no_char newline u /\ no_char carriage_return u.

Lemma unlines_no_carriage_return entries :
  Forall url_entry entries -> no_char carriage_return (unlines entries).
Proof.
  induction 1 as [|u rest (_ & _ & _ & _ & Hcr) _ IH]; [done|].
  cbn [unlines]. apply no_char_append; [done|].
  unfold no_char in *. simpl. by rewrite IH.
Qed.

(** X19: a file written with one entry on each line is read back as it was
    written: for entries that are not empty, have no white space around them,
    do not start with [#] and have no line feed and no carriage return in
    them, [parse_urls_from_file] of the text returns the same entries in the
    same order. *)
Theorem parse_urls_from_file_round_trip (entries : list string) (file_path : string) :
  Forall url_entry entries ->
  parse_urls_from_file (fun _ => inr (unlines entries)) file_path = entries.
Proof.
  intros H. unfold parse_urls_from_file, text_lines.
  rewrite (universal_newlines_fixed _ (unlines_no_carriage_return _ H)).
  induction H as [|u rest (Hne & Hstrip & Hhash & Hnl & _) _ IH]; [done|].
  cbn [unlines]. rewrite (split_cons _ _ _ Hnl), fmap_cons.
  cbn [List.filter]. rewrite Hstrip.
  unfold is_url_line at 1. rewrite Hhash.
  destruct u; [done|]. cbn [PyStr.is_empty negb andb]. by rewrite IH.
Qed.

Lemma parse_urls_from_file_round_trip_witness :
  parse_urls_from_file
    (fun _ => inr (unlines ["https://tldv.io/app/meetings/64f8a1b2c3d4e5f6a7b8c9d0";
                            "https://tldv.io/app/meetings/64f8a1b2c3d4e5f6a7b8c9d1"]))
    "urls.txt"
  = ["https://tldv.io/app/meetings/64f8a1b2c3d4e5f6a7b8c9d0";
     "https://tldv.io/app/meetings/64f8a1b2c3d4e5f6a7b8c9d1"].
Proof.
  apply parse_urls_from_file_round_trip.
  repeat constructor; try done; reflexivity.
Defined.

(** A carriage return inside a line ends the line: what was written as
    one entry is read as two. *)
Lemma parse_urls_from_file_carriage_return :
  parse_urls_from_file
    (fun _ => inr (unlines ["first" +:+ String carriage_return "second"]))
    "urls.txt"
  = ["first"; "second"].
Proof. reflexivity. Qed.

(** Lines of comment, empty lines and white space around an entry do not
    count, and the line ends of other systems are line ends. *)
Lemma parse_urls_from_file_line_ends :
  parse_urls_from_file
    (fun _ => inr ("https://tldv.io/app/meetings/64f8a1b2c3d4e5f6a7b8c9d0"
                   +:+ String carriage_return (String newline
                   ("https://tldv.io/app/meetings/64f8a1b2c3d4e5f6a7b8c9d1"
                    +:+ String carriage_return EmptyString))))
    "urls.txt"
  = ["https://tldv.io/app/meetings/64f8a1b2c3d4e5f6a7b8c9d0";
     "https://tldv.io/app/meetings/64f8a1b2c3d4e5f6a7b8c9d1"].
Proof. reflexivity. Qed.

(** Lines of comment, empty lines and white space around an entry do not
    count. *)
Lemma parse_urls_from_file_example :
  parse_urls_from_file
    (fun _ => inr ("# meetings of March" +:+ String newline
                   ("  https://tldv.io/app/meetings/64f8a1b2c3d4e5f6a7b8c9d0  "
                    +:+ String newline (String newline "#done"))))
    "urls.txt"
  = ["https://tldv.io/app/meetings/64f8a1b2c3d4e5f6a7b8c9d0"].
Proof. reflexivity. Qed.

(** ** [main] *)

(** [c.lower()] for a code point below 256: the capital letters of ASCII,
    and those from U+00C0 to U+00DE but the multiplication sign. *)
Definition char_lower (c : ascii) : ascii :=
  let n := nat_of_ascii c in
  if ((65 <=? n)%nat && (n <=? 90)%nat)
     || ((192 <=? n)%nat && (n <=? 222)%nat && negb (n =? 215)%nat)
  then ascii_of_nat (n + 32) else c.

(** [s.lower()] *)
Fixpoint str_lower (s : string) : string :=
  match s with
  | EmptyString => EmptyString
  | String c r => String (char_lower c) (str_lower r)
  end.

(** What [main] needs besides the worlds of the downloads: the text of a
    file ([open] and reading, for [parse_urls_from_file]) and the built-in
    [int] on a string, [None] when it raises [ValueError]. *)
Record MainWorld : Type := mk_main_world {
  downloads : BatchWorld;
  read_text : string -> result string;
  int_of : string -> option Z
}.

(** Line 390: is help asked for? *)
Definition is_help (argv : list string) : bool :=
  match argv with
  | _ :: arg :: _ =>
      String.eqb arg "-h" || String.eqb arg "--help" || String.eqb arg "help"
  | _ => false
  end.

(** [input(..)]: the next line typed, handed to [k] with the lines that are
    left. At the end of the input it raises [EOFError], which the clause of
    line 519 catches: [main] prints it and ends. *)
Definition input {A} (inputs : list string) (k : string -> list string -> IO A)
    (at_end : IO A) : IO A :=
  match inputs with
  | [] => at_end
  | line :: rest => k line rest
  end.

(** The loop of lines 418-423: the URLs typed until [done], and the lines
    left; [None] when the input ends before. *)
Fixpoint read_urls (inputs : list string) (urls : list string)
  : option (list string * list string) :=
  match inputs with
  | [] => None
  | line :: rest =>
      let url := PyStr.strip line in
      if String.eqb (str_lower url) "done" then Some (urls, rest)
      else read_urls rest (if PyStr.is_empty url then urls else urls ++ [url])
  end.

(** Lines 447-451. *)
Definition choose_workers (MW : MainWorld) (max_workers : string) : Z :=
  if PyStr.is_empty max_workers then 3%Z
  else match int_of MW max_workers with
       | Some n => Z.max 1 (Z.min 8 n)
       | None => 3%Z
       end.

(** The [output_dir] of lines 442-444 and 494-496. *)
Definition typed_dir (answer : string) : dir_arg :=
  let output_dir := PyStr.strip answer in
  if PyStr.is_empty output_dir then NoDir else DirStr output_dir.

(** The batch mode once the URLs are there (lines 425-474). *)
Definition main_batch (MW : MainWorld) (urls inputs : list string) : IO unit :=
  match urls with
  | [] => mret tt
  | _ :: _ =>
      input inputs (fun answer inputs =>
        let auth_token := PyStr.strip answer in
        if PyStr.is_empty auth_token then mret tt else
        input inputs (fun answer inputs =>
          let output_dir := typed_dir answer in
          input inputs (fun answer inputs =>
            let max_workers := choose_workers MW (PyStr.strip answer) in
            input inputs (fun answer inputs =>
              let confirm := str_lower (PyStr.strip answer) in
              if negb (String.eqb confirm "y") then mret tt else
              let video_data_list := (fun url => (url, auth_token)) <$> urls in
              try_except
                (download_multiple_videos (downloads MW) video_data_list
                   output_dir max_workers;; mret tt)
                (fun _ => Some (mret tt)))
            (mret tt)) (mret tt)) (mret tt)) (mret tt)
  end.

(** The single mode (lines 478-515). *)
Definition main_single (MW : MainWorld) (inputs : list string) : IO unit :=
  input inputs (fun answer inputs =>
    let url := PyStr.strip answer in
    if PyStr.is_empty url then mret tt else
    input inputs (fun answer inputs =>
      let auth_token := PyStr.strip answer in
      if PyStr.is_empty auth_token then mret tt else
      input inputs (fun answer inputs =>
        let output_dir := typed_dir answer in
        input inputs (fun answer inputs =>
          let confirm := str_lower (PyStr.strip answer) in
          if negb (String.eqb confirm "y") then mret tt else
          try_except
            (download_video (main_world (downloads MW)) url auth_token output_dir;;
             mret tt)
            (fun _ => Some (mret tt)))
        (mret tt)) (mret tt)) (mret tt)) (mret tt).

(** Lines 385-520: [argv] is [sys.argv], [inputs] the lines typed. *)
Definition main (MW : MainWorld) (argv inputs : list string) : IO unit :=
  if is_help argv then mret tt
  else
    input inputs (fun answer inputs =>
      let batch_mode := String.eqb (str_lower (PyStr.strip answer)) "y" in
      if batch_mode then
        input inputs (fun answer inputs =>
          let choice := PyStr.strip answer in
          if String.eqb choice "2" then
            input inputs (fun answer inputs =>
              let file_path := PyStr.strip answer in
              let urls := parse_urls_from_file (read_text MW) file_path in
              match urls with
              | [] => mret tt
              | _ :: _ => main_batch MW urls inputs
              end) (mret tt)
          else
            match read_urls inputs [] with
            | None => mret tt
            | Some (urls, inputs) => main_batch MW urls inputs
            end) (mret tt)
      else main_single MW inputs) (mret tt).

Lemma run_and_ignore {A} (m : IO A) :
  try_except (m;; mret tt) (fun _ => Some (mret tt)) = (inr tt, io_trace m).
Proof. destruct m as [[e|v] t]; simpl; by rewrite app_nil_r. Qed.

(** A text typed and stripped that is not empty. *)
Definition typed (s : string) : Prop := s <> EmptyString /\ PyStr.strip s = s.

Lemma typed_strip answer :
  PyStr.is_empty (PyStr.strip answer) = false -> typed (PyStr.strip answer).
Proof.
  intros H. split; [|apply strip_strip]. intros E. by rewrite E in H.
Qed.

Lemma parse_urls_from_file_typed read file_path :
  Forall typed (parse_urls_from_file read file_path).
Proof.
  unfold parse_urls_from_file. destruct (read file_path) as [e|text]; [constructor|].
  apply Forall_forall. intros u Hu.
  apply list_elem_of_In, List.filter_In in Hu as [Hin Hkeep].
  apply list_elem_of_In, list_elem_of_fmap in Hin as (line & -> & _).
  unfold is_url_line in Hkeep. apply andb_true_iff in Hkeep as [Hne _].
  apply negb_true_iff in Hne. by apply typed_strip.
Qed.

Lemma read_urls_typed inputs acc urls rest :
  read_urls inputs acc = Some (urls, rest) -> Forall typed acc -> Forall typed urls.
Proof.
  revert acc. induction inputs as [|line inputs IH]; intros acc; simpl; [done|].
  destruct (String.eqb _ "done"); [by intros [= <- _]|].
  intros H Hacc. apply (IH _ H).
  destruct (PyStr.is_empty (PyStr.strip line)) eqn:E; [done|].
  apply Forall_app. split; [done|]. constructor; [|done]. by apply typed_strip.
Qed.

Lemma choose_workers_range MW s : (1 <= choose_workers MW s <= 8)%Z.
Proof.
  unfold choose_workers. destruct (PyStr.is_empty s); [lia|].
  destruct (int_of MW s); lia.
Qed.

Lemma typed_dir_cases answer :
  typed_dir answer = NoDir \/ exists d, typed_dir answer = DirStr d /\ typed d.
Proof.
  unfold typed_dir. destruct (PyStr.is_empty (PyStr.strip answer)) eqn:E; [by left|].
  right. eexists. split; [done|]. by apply typed_strip.
Qed.

(** The calls [main] can end with. *)
Definition single_call (MW : MainWorld) (m : IO unit) : Prop :=
  exists url auth_token output_dir,
    typed url /\ typed auth_token
    /\ (output_dir = NoDir \/ exists d, output_dir = DirStr d /\ typed d)
    /\ m = (inr tt,
            io_trace (download_video (main_world (downloads MW)) url auth_token output_dir)).

Definition batch_call (MW : MainWorld) (m : IO unit) : Prop :=
  exists urls auth_token output_dir max_workers,
    urls <> [] /\ Forall typed urls /\ typed auth_token
    /\ (output_dir = NoDir \/ exists d, output_dir = DirStr d /\ typed d)
    /\ (1 <= max_workers <= 8)%Z
    /\ m = (inr tt,
            io_trace (download_multiple_videos (downloads MW)
                        ((fun url => (url, auth_token)) <$> urls)
                        output_dir max_workers)).

Lemma main_batch_calls MW urls inputs :
  Forall typed urls ->
  main_batch MW urls inputs = (inr tt, []) \/ batch_call MW (main_batch MW urls inputs).
Proof.
  intros Hurls. unfold main_batch. destruct urls as [|u urls]; [by left|].
  destruct inputs as [|l1 inputs]; [by left|]. cbn [input].
  destruct (PyStr.is_empty (PyStr.strip l1)) eqn:E1; [by left|].
  destruct inputs as [|l2 inputs]; [by left|]. cbn [input].
  destruct inputs as [|l3 inputs]; [by left|]. cbn [input].
  destruct inputs as [|l4 inputs]; [by left|]. cbn [input].
  destruct (negb (String.eqb _ "y")); [by left|].
  right. rewrite run_and_ignore.
  exists (u :: urls), (PyStr.strip l1), (typed_dir l2), (choose_workers MW (PyStr.strip l3)).
  split_and!; try done.
  - by apply typed_strip.
  - apply typed_dir_cases.
  - apply choose_workers_range.
  - apply choose_workers_range.
Qed.

Lemma main_single_calls MW inputs :
  main_single MW inputs = (inr tt, []) \/ single_call MW (main_single MW inputs).
Proof.
  unfold main_single.
  destruct inputs as [|l1 inputs]; [by left|]. cbn [input].
  destruct (PyStr.is_empty (PyStr.strip l1)) eqn:E1; [by left|].
  destruct inputs as [|l2 inputs]; [by left|]. cbn [input].
  destruct (PyStr.is_empty (PyStr.strip l2)) eqn:E2; [by left|].
  destruct inputs as [|l3 inputs]; [by left|]. cbn [input].
  destruct inputs as [|l4 inputs]; [by left|]. cbn [input].
  destruct (negb (String.eqb _ "y")); [by left|].
  right. rewrite run_and_ignore.
  exists (PyStr.strip l1), (PyStr.strip l2), (typed_dir l3).
  split_and!; try done; try by apply typed_strip.
  apply typed_dir_cases.
Qed.

(** X20: whatever is typed, [main] raises nothing and ends in one of three
    ways: it downloads nothing; or it makes one call of [download_video], with
    a URL and a token that are not empty; or it makes one call of
    [download_multiple_videos], with a list that is not empty, of URLs that are
    not empty, all with the same token that is not empty, and with between 1
    and 8 workers. A directory, when one is given, is not the empty text. *)
Theorem main_calls (MW : MainWorld) (argv inputs : list string) :
  let m := main MW argv inputs in
  m = (inr tt, []) \/ single_call MW m \/ batch_call MW m.
Proof.
  intros m. subst m. unfold main.
  destruct (is_help argv); [by left|].
  destruct inputs as [|l1 inputs]; [by left|]. cbn [input].
  destruct (String.eqb (str_lower (PyStr.strip l1)) "y").
  - destruct inputs as [|l2 inputs]; [by left|]. cbn [input].
    destruct (String.eqb (PyStr.strip l2) "2").
    + destruct inputs as [|l3 inputs]; [by left|]. cbn [input].
      pose proof (parse_urls_from_file_typed (read_text MW) (PyStr.strip l3)) as Hurls.
      destruct (parse_urls_from_file (read_text MW) (PyStr.strip l3)) as [|u urls];
        [by left|].
      destruct (main_batch_calls MW (u :: urls) inputs) as [E|H]; [done|by left|by auto].
    + destruct (read_urls inputs []) as [[urls rest]|] eqn:E; [|by left].
      destruct (main_batch_calls MW urls rest) as [E'|H]; [|by left|by auto].
      by apply (read_urls_typed _ _ _ _ E).
  - destruct (main_single_calls MW inputs) as [E|H]; by auto.
Qed.

Lemma not_y_eqb s : s <> "y" -> String.eqb s "y" = false.
Proof. intros H. by apply String.eqb_neq. Qed.

Lemma main_batch_unconfirmed MW urls inputs :
  Forall (fun line => str_lower (PyStr.strip line) <> "y") inputs ->
  main_batch MW urls inputs = (inr tt, []).
Proof.
  intros H. unfold main_batch. destruct urls as [|u urls]; [done|].
  destruct inputs as [|l1 inputs]; [done|]. cbn [input].
  destruct (PyStr.is_empty (PyStr.strip l1)); [done|].
  destruct inputs as [|l2 inputs]; [done|]. cbn [input].
  destruct inputs as [|l3 inputs]; [done|]. cbn [input].
  destruct inputs as [|l4 inputs]; [done|]. cbn [input].
  do 3 apply Forall_cons in H as [_ H]. apply Forall_cons in H as [H4 _].
  by rewrite (not_y_eqb _ H4).
Qed.

(** X21: nothing is downloaded without a [y]: when help is asked for on the
    command line, or when no line typed is [y] or [Y] (with white space around
    it or not), [main] ends without a request, a probe, a file or a
    process. *)
Theorem main_needs_confirmation (MW : MainWorld) (argv inputs : list string) :
  is_help argv = true
  \/ Forall (fun line => str_lower (PyStr.strip line) <> "y") inputs ->
  main MW argv inputs = (inr tt, []).
Proof.
  intros [Hhelp|H]; unfold main; [by rewrite Hhelp|].
  destruct (is_help argv); [done|].
  destruct inputs as [|l1 inputs]; [done|]. cbn [input].
  apply Forall_cons in H as [H1 H]. rewrite (not_y_eqb _ H1).
  unfold main_single.
  destruct inputs as [|l2 inputs]; [done|]. cbn [input].
  destruct (PyStr.is_empty (PyStr.strip l2)); [done|].
  destruct inputs as [|l3 inputs]; [done|]. cbn [input].
  destruct (PyStr.is_empty (PyStr.strip l3)); [done|].
  destruct inputs as [|l4 inputs]; [done|]. cbn [input].
  destruct inputs as [|l5 inputs]; [done|]. cbn [input].
  do 3 apply Forall_cons in H as [_ H]. apply Forall_cons in H as [H5 _].
  by rewrite (not_y_eqb _ H5).
Qed.

Definition sample_main_world : MainWorld :=
  mk_main_world batch_world (fun _ => inl (FileNotFoundError "urls.txt"))
    (fun s => if String.eqb s "12" then Some 12%Z else None).

Lemma main_needs_confirmation_witness :
  main sample_main_world ["tldv_downloader.py"]
    ["n"; "https://tldv.io/app/meetings/64f8a1b2c3d4e5f6a7b8c9d0"; "eyJhbGciOi.x.y";
     ""; "no"]
  = (inr tt, []).
Proof.
  apply main_needs_confirmation. right. repeat constructor; by vm_compute.
Defined.

(** A batch typed in full: two URLs, a token, no directory, 12 workers asked
    for: the pool is started with 8. *)
Lemma main_batch_example :
  let t := io_trace (main sample_main_world ["tldv_downloader.py"]
                       ["y"; "1"; "https://tldv.io/app/meetings/64f8a1b2c3d4e5f6a7b8c9d0";
                        " "; "https://tldv.io/app/meetings/64f8a1b2c3d4e5f6a7b8c9d1";
                        "Done"; "eyJhbGciOi.x.y"; ""; "12"; "Y"]) in
  t !! 0 = Some EvCwd /\ t !! 1 = Some (EvPool 8).
Proof. split; vm_compute; reflexivity. Qed.
